(** * logboom: leveled logging (LoggerMachine, ConsoleLogger, FileLogger)

    A shallow embedding of [src/source/logboom.ts].

    - JavaScript strings are [string]s holding the UTF-8 bytes of the
      text; [js_length] counts UTF-16 code units, as [.length] does.  The
      case mappings act on the ASCII letters, which is what [toLowerCase]
      and [toUpperCase] do on ASCII text.  The six severity labels and
      their tags are ASCII; other characters are carried along as they
      are, and none of them lower-cases to a letter of a label.
    - The outside world is a record: the clock read by [new Date()] and the
      chronological trace of console and file-stream writes.
    - Methods run in a state-and-exception monad whose state holds both the
      receiver ([this]) and the world, so that a method could, in principle,
      assign to a field or throw.
    - [chalk] and [strip-ansi] are packages the program imports; they are
      parameters of the development.  Console and stream writes are taken to
      succeed (Node reports their failures asynchronously, not to the
      caller); opening a stream throws at once when the path holds a NUL
      character, the one failure [createWriteStream] reports to its
      caller. *)

From Stdlib Require Import String Ascii List ZArith Lia Bool.
Import ListNotations.
Local Open Scope string_scope.
Local Open Scope Z_scope.

(* ================================================================== *)
(** * JavaScript builtins used by the program *)

Definition is_upper (c : ascii) : bool :=
  ((65 <=? nat_of_ascii c) && (nat_of_ascii c <=? 90))%nat.

Definition is_lower (c : ascii) : bool :=
  ((97 <=? nat_of_ascii c) && (nat_of_ascii c <=? 122))%nat.

Definition lower_char (c : ascii) : ascii :=
  if is_upper c then ascii_of_nat (nat_of_ascii c + 32) else c.

Definition upper_char (c : ascii) : ascii :=
  if is_lower c then ascii_of_nat (nat_of_ascii c - 32) else c.

Fixpoint map_chars (f : ascii -> ascii) (s : string) : string :=
  match s with
  | EmptyString => EmptyString
  | String c rest => String (f c) (map_chars f rest)
  end.

(** [String.prototype.toLowerCase] and [toUpperCase]. *)
Definition toLowerCase : string -> string := map_chars lower_char.
Definition toUpperCase : string -> string := map_chars upper_char.

(** [s.length]: the number of UTF-16 code units of the text.  In UTF-8 a
    continuation byte (128..191) belongs to the character its lead byte
    started; a character of four bytes (lead byte 240 or above) takes
    two code units, every other character one. *)
Definition code_units (c : ascii) : nat :=
  if (nat_of_ascii c <? 128)%nat then 1%nat
  else if (nat_of_ascii c <? 192)%nat then 0%nat
  else if (nat_of_ascii c <? 240)%nat then 1%nat
  else 2%nat.

Fixpoint js_length (s : string) : nat :=
  match s with
  | EmptyString => 0%nat
  | String c rest => (code_units c + js_length rest)%nat
  end.

(** [Array.prototype.indexOf]: position of the first element equal to
    [x], or [-1]. *)
Fixpoint indexOf_from (i : Z) (arr : list string) (x : string) : Z :=
  match arr with
  | [] => -1
  | y :: rest => if String.eqb y x then i else indexOf_from (i + 1) rest x
  end.

Definition indexOf (arr : list string) (x : string) : Z := indexOf_from 0 arr x.

(** [arr[i]] for a number [i]: [undefined] ([None]) outside the array. *)
Definition array_get {A : Type} (arr : list A) (i : Z) : option A :=
  if i <? 0 then None else nth_error arr (Z.to_nat i).

(** String concatenation with a possibly [undefined] operand:
    [s + undefined] appends the text "undefined". *)
Definition js_string_of (v : option string) : string :=
  match v with
  | Some s => s
  | None => "undefined"
  end.

(** The [Error] interface of the TypeScript library: [stack] is optional. *)
Record JsError := {
  name : string;
  message : string;
  stack : option string
}.

(* ================================================================== *)
(** * Severity scale *)

(** The type [Level]: a union of six string literals. *)
Inductive Level := Lerror | Lwarn | Linfo | Lverbose | Ldebug | Lsilly.

Definition label (l : Level) : string :=
  match l with
  | Lerror => "error"
  | Lwarn => "warn"
  | Linfo => "info"
  | Lverbose => "verbose"
  | Ldebug => "debug"
  | Lsilly => "silly"
  end.

(** The ranks the specification assigns. *)
Definition rank (l : Level) : Z :=
  match l with
  | Lerror => 0
  | Lwarn => 1
  | Linfo => 2
  | Lverbose => 3
  | Ldebug => 4
  | Lsilly => 5
  end.

Definition all_levels : list Level :=
  [Lerror; Lwarn; Linfo; Lverbose; Ldebug; Lsilly].

(** A label is recognized when its lower-casing is one of the six. *)
Definition recognized (s : string) : Prop :=
  exists l, toLowerCase s = label l.

(* ================================================================== *)
(** * Objects *)

(** Fields of [LoggerMachine]. *)
Record LoggerMachine := {
  threshold : Z;
  levels : list string
}.

(** [ConsoleLogger extends LoggerMachine]. *)
Record ConsoleLogger := {
  machine : LoggerMachine;
  colors : list string
}.

(** The handle [createWriteStream] returns. *)
Record WriteStream := {
  path : string;
  flags : string
}.

(** [FileLogger extends ConsoleLogger]. *)
Record FileLogger := {
  console : ConsoleLogger;
  stream : WriteStream;
  eol : string
}.

(** An instance of the [Logger] interface: [LoggerMachine] is abstract,
    so a receiver is an object of one of the two concrete classes. *)
Inductive Logger :=
  | AConsoleLogger (c : ConsoleLogger)
  | AFileLogger (f : FileLogger).

Definition as_console (this : Logger) : ConsoleLogger :=
  match this with
  | AConsoleLogger c => c
  | AFileLogger f => console f
  end.

Definition as_machine (this : Logger) : LoggerMachine := machine (as_console this).

Record LoggerMachineOptions := {
  level : string
}.

Record FileLoggerOptions := {
  options : LoggerMachineOptions;
  logfile : string;
  opt_eol : option string
}.

(* ================================================================== *)
(** * The world *)

Inductive Event :=
  | ConsoleLog (line : string)      (* console.log: a line on stdout *)
  | ConsoleError (line : string)    (* console.error: a line on stderr *)
  | StreamOpen (s : WriteStream)    (* createWriteStream *)
  | StreamWrite (s : WriteStream) (chunk : string).

Record World := {
  clock : nat -> string;   (* the ISO-8601 text of the n-th clock reading *)
  reads : nat;             (* clock readings so far *)
  trace : list Event       (* oldest event first *)
}.

Definition emit (e : Event) (w : World) : World :=
  {| clock := clock w; reads := reads w; trace := trace w ++ [e] |}.

Definition tick (w : World) : World :=
  {| clock := clock w; reads := S (reads w); trace := trace w |}.

(** Lines written to stdout, to stderr, and text appended to a file. *)
Fixpoint stdout_of (t : list Event) : list string :=
  match t with
  | [] => []
  | ConsoleLog s :: rest => s :: stdout_of rest
  | _ :: rest => stdout_of rest
  end.

Fixpoint stderr_of (t : list Event) : list string :=
  match t with
  | [] => []
  | ConsoleError s :: rest => s :: stderr_of rest
  | _ :: rest => stderr_of rest
  end.

Fixpoint appended_to (p : string) (t : list Event) : string :=
  match t with
  | [] => ""
  | StreamWrite s chunk :: rest =>
      if String.eqb (path s) p then chunk ++ appended_to p rest
      else appended_to p rest
  | _ :: rest => appended_to p rest
  end.

(* ================================================================== *)
(** * State and exceptions *)

Inductive exn := TypeError (msg : string).

Inductive outcome (A : Type) :=
  | Return (a : A)
  | Throw (e : exn).
Arguments Return {A} a.
Arguments Throw {A} e.

Definition M (S A : Type) : Type := S -> outcome A * S.

Definition ret {S A : Type} (a : A) : M S A := fun s => (Return a, s).

Definition throw {S A : Type} (e : exn) : M S A := fun s => (Throw e, s).

Definition bind {S A B : Type} (m : M S A) (k : A -> M S B) : M S B :=
  fun s =>
    match m s with
    | (Return a, s') => k a s'
    | (Throw e, s') => (Throw e, s')
    end.

Definition gets {S A : Type} (f : S -> A) : M S A := fun s => (Return (f s), s).

Definition modify {S : Type} (f : S -> S) : M S unit := fun s => (Return tt, f s).

Declare Scope js_scope.
Delimit Scope js_scope with js.
Notation "x <- m ;; k" := (bind m (fun x => k))
  (at level 61, m at next level, right associativity) : js_scope.
Notation "m ;; k" := (bind m (fun _ => k))
  (at level 61, right associativity) : js_scope.

(** The state a method runs in: its receiver and the world. *)
Record State := {
  this : Logger;
  world : World
}.

Definition IO (A : Type) : Type := M World A.
Definition Method (A : Type) : Type := M State A.

(** World actions inside a method. *)
Definition liftIO {A : Type} (io : IO A) : Method A :=
  fun st =>
    let (r, w) := io (world st) in
    (r, {| this := this st; world := w |}).

(** [new Date().toISOString()] *)
Definition Date_toISOString : IO string :=
  fun w => (Return (clock w (reads w)), tick w).

Definition console_log (s : string) : IO unit := modify (emit (ConsoleLog s)).
Definition console_error (s : string) : IO unit := modify (emit (ConsoleError s)).

(** A path with a NUL character is refused by Node before anything is
    opened. *)
Definition NUL : ascii := ascii_of_nat 0.

Fixpoint has_nul (s : string) : bool :=
  match s with
  | EmptyString => false
  | String c rest => Ascii.eqb c NUL || has_nul rest
  end.

(** [createWriteStream(path, {flags})]: a TypeError for a path with a
    NUL character; otherwise the stream, opened. *)
Definition createWriteStream (p fl : string) : IO WriteStream :=
  if has_nul p
  then throw (TypeError "The argument 'path' must be a string without null bytes")
  else
    let s := {| path := p; flags := fl |} in
    bind (modify (emit (StreamOpen s))) (fun _ => ret s).

Definition stream_write (s : WriteStream) (chunk : string) : IO unit :=
  modify (emit (StreamWrite s chunk)).

(** Running a method on a receiver in a world. *)
Definition run {A : Type} (m : Method A) (o : Logger) (w : World)
  : outcome A * State :=
  m {| this := o; world := w |}.

(** Reading a field of the receiver. *)
Definition field {A : Type} (f : Logger -> A) : Method A :=
  gets (fun st => f (this st)).

(* ================================================================== *)
(** * The imported packages *)

(** The part of the [chalk] module the program uses: seven style
    functions from strings to strings. *)
Record Chalk := {
  red : string -> string;
  magenta : string -> string;
  cyan : string -> string;
  green : string -> string;
  blue : string -> string;
  gray : string -> string;
  yellow : string -> string
}.

(** [(<any>chalk)[color]]: the property of [chalk] of that name.  The
    program only ever indexes with an entry of its [colors] table or with
    [undefined]; a key outside the seven styles above reads as absent. *)
Definition chalk_index (chalk : Chalk) (key : option string)
  : option (string -> string) :=
  match key with
  | None => None
  | Some k =>
      if String.eqb k "red" then Some (red chalk)
      else if String.eqb k "magenta" then Some (magenta chalk)
      else if String.eqb k "cyan" then Some (cyan chalk)
      else if String.eqb k "green" then Some (green chalk)
      else if String.eqb k "blue" then Some (blue chalk)
      else if String.eqb k "gray" then Some (gray chalk)
      else if String.eqb k "yellow" then Some (yellow chalk)
      else None
  end.

Definition ESC : ascii := ascii_of_nat 27.
Definition LF : string := String (ascii_of_nat 10) "".

(** A terminal with colors: each style wraps its argument in an SGR
    opening and closing code. *)
Definition sgr (code : string) : string := String ESC ("[" ++ code ++ "m").

Definition style (open close : string) (s : string) : string :=
  sgr open ++ s ++ sgr close.

Definition ansi_chalk : Chalk := {|
  red := style "31" "39";
  magenta := style "35" "39";
  cyan := style "36" "39";
  green := style "32" "39";
  blue := style "34" "39";
  gray := style "90" "39";
  yellow := style "33" "39"
|}.

(** A terminal without color support: every style is the identity. *)
Definition plain_chalk : Chalk := {|
  red := fun s => s;
  magenta := fun s => s;
  cyan := fun s => s;
  green := fun s => s;
  blue := fun s => s;
  gray := fun s => s;
  yellow := fun s => s
|}.

(** Removal of SGR sequences (ESC, bracket, digits and semicolons, m):
    the fragment of [strip-ansi] that undoes [ansi_chalk].  [pending]
    holds the characters of a sequence that is not complete yet; they are
    given back when the sequence turns out not to be one. *)
Inductive Scan := InText | AfterEsc | InParams.

Definition is_param (c : ascii) : bool :=
  ((48 <=? nat_of_ascii c) && (nat_of_ascii c <=? 59))%nat
  && negb (Ascii.eqb c ":").

Fixpoint strip_scan (mode : Scan) (pending : string) (s : string) : string :=
  match s with
  | EmptyString => pending
  | String c rest =>
      let restart :=
        if Ascii.eqb c ESC then strip_scan AfterEsc (String c "") rest
        else String c (strip_scan InText "" rest) in
      match mode with
      | InText => restart
      | AfterEsc =>
          if Ascii.eqb c "[" then strip_scan InParams (pending ++ "[") rest
          else pending ++ restart
      | InParams =>
          if is_param c then strip_scan InParams (pending ++ String c "") rest
          else if Ascii.eqb c "m" then strip_scan InText "" rest
          else pending ++ restart
      end
  end.

Definition strip_sgr (s : string) : string := strip_scan InText "" s.

(* ================================================================== *)
(** * LoggerMachine: the helpers *)

(** [getLongestValue]: the first string of greatest length. *)
Definition getLongestValue (arr : list string) : string :=
  fold_left
    (fun longest subject =>
       if (js_length longest <? js_length subject)%nat
       then subject else longest)
    arr "".

(** [rpad]: the loop [while (subject.length < length) subject += " "].
    Each round makes [subject] one longer, so [length] rounds of fuel
    are enough. *)
Fixpoint rpad_loop (fuel : nat) (subject : string) (length : nat) : string :=
  match fuel with
  | O => subject
  | S fuel' =>
      if (js_length subject <? length)%nat
      then rpad_loop fuel' (subject ++ " ") length
      else subject
  end.

Definition rpad (subject : string) (length : nat) : string :=
  rpad_loop length subject length.

Fixpoint spaces (n : nat) : string :=
  match n with
  | O => ""
  | S n' => String " " (spaces n')
  end.

(** [getLevelNumber]; it reads [this.levels] only. *)
Definition getLevelNumber (lv : list string) (level : string) : Z :=
  indexOf lv (toLowerCase level).

(** [levelTag]; it reads [this.levels] only. *)
Definition levelTag (lv : list string) (level : string) : string :=
  rpad ("(" ++ toUpperCase level ++ ") ")
       (3 + js_length (getLongestValue lv)).

(* ================================================================== *)
(** * Constructors *)

(** The field initializers. *)
Definition levels_init : list string :=
  ["error"; "warn"; "info"; "verbose"; "debug"; "silly"].

Definition colors_init : list string :=
  ["red"; "magenta"; "cyan"; "green"; "blue"; "gray"].

(** [LoggerMachine]: [levels] is initialized, then the constructor body
    assigns [threshold]. *)
Definition new_LoggerMachine (o : LoggerMachineOptions) : LoggerMachine :=
  let lv := levels_init in
  {| threshold := getLevelNumber lv (level o); levels := lv |}.

Definition init_ConsoleLogger (o : LoggerMachineOptions) : ConsoleLogger :=
  {| machine := new_LoggerMachine o; colors := colors_init |}.

Definition new_ConsoleLogger (o : LoggerMachineOptions) : IO Logger :=
  ret (AConsoleLogger (init_ConsoleLogger o)).

(** [FileLogger]: [eol] defaults to a newline; the stream is opened for
    appending and the line ending is written to it at once. *)
Definition new_FileLogger (o : FileLoggerOptions) : IO Logger :=
  let e := match opt_eol o with Some e => e | None => LF end in
  let super := init_ConsoleLogger (options o) in
  (s <- createWriteStream (logfile o) "a" ;;
   stream_write s e ;;
   ret (AFileLogger {| console := super; stream := s; eol := e |}))%js.

(* ================================================================== *)
(** * Methods *)

(** The five methods that go through [reportMessage]. *)
Inductive Leveled := Warn | Info | Verbose | Debug | Silly.

Definition severity (c : Leveled) : Level :=
  match c with
  | Warn => Lwarn
  | Info => Linfo
  | Verbose => Lverbose
  | Debug => Ldebug
  | Silly => Lsilly
  end.

Section Logboom.

Variable chalk : Chalk.
Variable stripAnsi : string -> string.

Local Open Scope js_scope.

Definition this_levels : Method (list string) :=
  field (fun o => levels (as_machine o)).

Definition this_threshold : Method Z :=
  field (fun o => threshold (as_machine o)).

Definition this_colors : Method (list string) :=
  field (fun o => colors (as_console o)).

(** [this.stream] and [this.eol] exist on a [FileLogger] only; reading
    [this.stream.write] elsewhere would be a TypeError. *)
Definition this_stream : Method WriteStream :=
  o <- field (fun o => o) ;;
  match o with
  | AFileLogger f => ret (stream f)
  | AConsoleLogger _ =>
      throw (TypeError "Cannot read properties of undefined (reading 'write')")
  end.

Definition this_eol : Method (option string) :=
  field (fun o => match o with
                  | AFileLogger f => Some (eol f)
                  | AConsoleLogger _ => None
                  end).

Definition timestamp : Method string :=
  iso <- liftIO Date_toISOString ;;
  ret ("[" ++ iso ++ "] ").

(** ** LoggerMachine: the default formatting *)

Definition LoggerMachine_formatError (error : JsError) : Method string :=
  ts <- timestamp ;;
  lv <- this_levels ;;
  ret (ts ++ levelTag lv "error" ++ js_string_of (stack error)).

Definition LoggerMachine_formatMessage (level message : string)
  : Method string :=
  ts <- timestamp ;;
  lv <- this_levels ;;
  ret (ts ++ levelTag lv level ++ message).

(** ** ConsoleLogger *)

Definition ConsoleLogger_formatError (error : JsError) : Method string :=
  ts <- timestamp ;;
  lv <- this_levels ;;
  ret (yellow chalk ts
       ++ red chalk (levelTag lv "error" ++ js_string_of (stack error))).

Definition ConsoleLogger_formatMessage (level message : string)
  : Method string :=
  cs <- this_colors ;;
  lv <- this_levels ;;
  let color := array_get cs (getLevelNumber lv level) in
  let chalkFunction := chalk_index chalk color in
  ts <- timestamp ;;
  match chalkFunction with
  | Some f => ret (yellow chalk ts ++ f (levelTag lv level ++ message))
  | None => throw (TypeError "chalkFunction is not a function")
  end.

Definition ConsoleLogger_logErrorMessage (errorMessage : string)
  : Method unit :=
  liftIO (console_error errorMessage).

Definition ConsoleLogger_logMessage (message : string) : Method unit :=
  liftIO (console_log message).

(** ** FileLogger *)

Definition FileLogger_logErrorMessage (errorMessage : string)
  : Method unit :=
  ConsoleLogger_logErrorMessage errorMessage ;;
  s <- this_stream ;;
  e <- this_eol ;;
  liftIO (stream_write s (stripAnsi errorMessage ++ js_string_of e)).

Definition FileLogger_logMessage (message : string) : Method unit :=
  ConsoleLogger_logMessage message ;;
  s <- this_stream ;;
  e <- this_eol ;;
  liftIO (stream_write s (stripAnsi message ++ js_string_of e)).

(** The listing of [FileLogger.logMessage] in [readme.md] is an earlier
    state of the method: the line ending comes before the text there. *)
Definition readme_FileLogger_logMessage (message : string) : Method unit :=
  ConsoleLogger_logMessage message ;;
  s <- this_stream ;;
  e <- this_eol ;;
  liftIO (stream_write s (js_string_of e ++ stripAnsi message)).

(** ** Method lookup on the receiver's class *)

Definition formatError (error : JsError) : Method string :=
  o <- field (fun o => o) ;;
  match o with
  | AConsoleLogger _ => ConsoleLogger_formatError error
  | AFileLogger _ => ConsoleLogger_formatError error
  end.

Definition formatMessage (level message : string) : Method string :=
  o <- field (fun o => o) ;;
  match o with
  | AConsoleLogger _ => ConsoleLogger_formatMessage level message
  | AFileLogger _ => ConsoleLogger_formatMessage level message
  end.

Definition logErrorMessage (errorMessage : string) : Method unit :=
  o <- field (fun o => o) ;;
  match o with
  | AConsoleLogger _ => ConsoleLogger_logErrorMessage errorMessage
  | AFileLogger _ => FileLogger_logErrorMessage errorMessage
  end.

Definition logMessage (message : string) : Method unit :=
  o <- field (fun o => o) ;;
  match o with
  | AConsoleLogger _ => ConsoleLogger_logMessage message
  | AFileLogger _ => FileLogger_logMessage message
  end.

(** ** LoggerMachine: triage and the public methods *)

Definition reportMessage (level message : string) : Method unit :=
  lv <- this_levels ;;
  t <- this_threshold ;;
  if getLevelNumber lv level <=? t
  then (s <- formatMessage level message ;; logMessage s)
  else ret tt.

Definition error (e : JsError) : Method unit :=
  s <- formatError e ;; logErrorMessage s.

Definition warn (message : string) : Method unit := reportMessage "warn" message.
Definition info (message : string) : Method unit := reportMessage "info" message.
Definition verbose (message : string) : Method unit := reportMessage "verbose" message.
Definition debug (message : string) : Method unit := reportMessage "debug" message.
Definition silly (message : string) : Method unit := reportMessage "silly" message.

Definition call (c : Leveled) : string -> Method unit :=
  match c with
  | Warn => warn
  | Info => info
  | Verbose => verbose
  | Debug => debug
  | Silly => silly
  end.

(** The six public calls. *)
Inductive Call :=
  | CError (e : JsError)
  | CLeveled (c : Leveled) (m : string).

Definition invoke (k : Call) : Method unit :=
  match k with
  | CError e => error e
  | CLeveled c m => call c m
  end.

(* ================================================================== *)
(** * Vocabulary of the specification *)

(** The severity-to-color table of the console sink. *)
Definition color_of (l : Level) : string -> string :=
  match l with
  | Lerror => red chalk
  | Lwarn => magenta chalk
  | Linfo => cyan chalk
  | Lverbose => green chalk
  | Ldebug => blue chalk
  | Lsilly => gray chalk
  end.

(** A formatted entry: timestamp, level tag, body; the timestamp in
    yellow, tag and body in the color of the severity. *)
Definition formatted (lv : list string) (l : Level) (iso body : string)
  : string :=
  yellow chalk ("[" ++ iso ++ "] ") ++ color_of l (levelTag lv (label l) ++ body).

(** The entry a call stands for, and whether triage lets it through. *)
Definition entry_level (k : Call) : Level :=
  match k with
  | CError _ => Lerror
  | CLeveled c _ => severity c
  end.

Definition entry_body (k : Call) : string :=
  match k with
  | CError e => js_string_of (stack e)
  | CLeveled _ m => m
  end.

Definition accepted (lg : Logger) (k : Call) : bool :=
  match k with
  | CError _ => true
  | CLeveled c _ => rank (severity c) <=? threshold (as_machine lg)
  end.

(** The console write of an entry: errors go to stderr, the rest to
    stdout. *)
Definition console_event (k : Call) (line : string) : Event :=
  match k with
  | CError _ => ConsoleError line
  | CLeveled _ _ => ConsoleLog line
  end.

(** The line of an accepted call made in world [w]. *)
Definition line_of (lg : Logger) (k : Call) (w : World) : string :=
  formatted (levels (as_machine lg)) (entry_level k) (clock w (reads w))
            (entry_body k).

(** The events a run added to the world it started in. *)
Definition since {A : Type} (w : World) (r : outcome A * State) : list Event :=
  skipn (List.length (trace w)) (trace (world (snd r))).

(** Objects that come out of a constructor, with the [level] option
    they were given. *)
Inductive constructed_with (lvl : string) : Logger -> Prop :=
  | by_new_ConsoleLogger o w lg :
      level o = lvl ->
      fst (new_ConsoleLogger o w) = Return lg ->
      constructed_with lvl lg
  | by_new_FileLogger o w lg :
      level (options o) = lvl ->
      fst (new_FileLogger o w) = Return lg ->
      constructed_with lvl lg.

Definition constructed (lg : Logger) : Prop :=
  exists lvl, constructed_with lvl lg.

(** The class invariant the constructors establish. *)
Definition well_formed (lg : Logger) : Prop :=
  levels (as_machine lg) = levels_init /\ colors (as_console lg) = colors_init.

(** What a sink writes for one entry: the console line and, for a file
    logger, the stripped line and the line ending on its stream. *)
Definition sink_writes (lg : Logger) (k : Call) (line : string) : list Event :=
  match lg with
  | AConsoleLogger _ => [console_event k line]
  | AFileLogger f =>
      [console_event k line;
       StreamWrite (stream f) (stripAnsi line ++ eol f)]
  end.

(** The world after one clock reading and some writes. *)
Definition after (w : World) (evs : list Event) : World :=
  {| clock := clock w; reads := S (reads w); trace := trace w ++ evs |}.

(** A method keeps its receiver. *)
Definition keeps_this {A : Type} (m : Method A) : Prop :=
  forall st, this (snd (m st)) = this st.

(** A logger on which the five leveled calls do nothing and [error]
    still writes its line. *)
Definition silent_except_errors (lg : Logger) : Prop :=
  threshold (as_machine lg) = -1
  /\ (forall c m w, run (call c m) lg w = (Return tt, {| this := lg; world := w |}))
  /\ (forall e w,
        fst (run (error e) lg w) = Return tt
        /\ stderr_of (since w (run (error e) lg w))
           = [line_of lg (CError e) w]).

(** The line ending a file logger is configured with. *)
Definition configured_eol (o : FileLoggerOptions) : string :=
  match opt_eol o with
  | Some e => e
  | None => LF
  end.

(** Worlds and errors for the examples. *)
Definition noon : World :=
  {| clock := fun _ => "2018-01-01T12:00:00.000Z"; reads := 0; trace := [] |}.

Definition boom : JsError :=
  {| name := "Error"; message := "boom"; stack := Some "Error: boom" |}.

Definition bare_boom : JsError :=
  {| name := "Error"; message := "boom"; stack := None |}.

Definition info_console : Logger :=
  AConsoleLogger (init_ConsoleLogger {| level := "info" |}).

Definition out_log : FileLoggerOptions :=
  {| options := {| level := "warn" |}; logfile := "out.log"; opt_eol := None |}.

Definition out_log_stream : WriteStream := {| path := "out.log"; flags := "a" |}.

Definition warn_file : Logger :=
  AFileLogger {| console := init_ConsoleLogger {| level := "warn" |};
                 stream := out_log_stream; eol := LF |}.

Definition warn_console : Logger :=
  AConsoleLogger (init_ConsoleLogger {| level := "warn" |}).

Definition loud_log : FileLoggerOptions :=
  {| options := {| level := "loud" |}; logfile := "out.log"; opt_eol := None |}.

(** A path with a NUL character in it, and options that name it. *)
Definition nul_path : string := String "a" (String NUL "b").

Definition nul_log : FileLoggerOptions :=
  {| options := {| level := "loud" |}; logfile := nul_path; opt_eol := None |}.

(** The UTF-8 bytes of e with an acute accent: one code unit. *)
Definition e_acute : string :=
  String (ascii_of_nat 195) (String (ascii_of_nat 169) "").

(* ================================================================== *)
(** * Callers *)

(** Statements of a caller, one call after the other on the same
    logger; an exception ends the sequence. *)
Fixpoint run_all (ks : list Call) : Method unit :=
  match ks with
  | [] => ret tt
  | k :: rest => invoke k ;; run_all rest
  end.

(** Method calls made from top level on an object. *)
Definition on {A : Type} (lg : Logger) (m : Method A) : IO A :=
  fun w => let (r, st) := run m lg w in (r, world st).

(** [new Error(message)]: the runtime supplies the stack text. *)
Definition new_Error (msg stack_text : string) : JsError :=
  {| name := "Error"; message := msg; stack := Some stack_text |}.

(** A program that builds a file logger and makes some calls. *)
Definition session (o : FileLoggerOptions) (ks : list Call) : IO unit :=
  lg <- new_FileLogger o ;;
  on lg (run_all ks).

(** [src/source/example.ts]; [stack_text] is the stack the runtime
    gives the error. *)
Definition example_ts (stack_text : string) : IO unit :=
  logger <- new_FileLogger {| options := {| level := "silly" |};
                              logfile := "example.log";
                              opt_eol := None |} ;;
  on logger
     (error (new_Error "an error occurred" stack_text) ;;
      warn "heed my warning!" ;;
      info "something informative" ;;
      verbose "explaining what's happening verbosely" ;;
      debug "information to help diagnose bugs" ;;
      silly "obscenely fine-grained details").

(** ** The listing in [readme.md]

    The listing differs from [logboom.ts] in names ([loglevel] for
    [level]; the [level] field of the options stands for it), in the
    [FileLogger] constructor, which writes nothing to the stream it
    opens, and in the two [FileLogger] log methods, which put the line
    ending before the text.  Formatting and triage are the same code. *)

Definition readme_FileLogger_logErrorMessage (errorMessage : string)
  : Method unit :=
  ConsoleLogger_logErrorMessage errorMessage ;;
  s <- this_stream ;;
  e <- this_eol ;;
  liftIO (stream_write s (js_string_of e ++ stripAnsi errorMessage)).

Definition readme_logErrorMessage (errorMessage : string) : Method unit :=
  o <- field (fun o => o) ;;
  match o with
  | AConsoleLogger _ => ConsoleLogger_logErrorMessage errorMessage
  | AFileLogger _ => readme_FileLogger_logErrorMessage errorMessage
  end.

Definition readme_logMessage (message : string) : Method unit :=
  o <- field (fun o => o) ;;
  match o with
  | AConsoleLogger _ => ConsoleLogger_logMessage message
  | AFileLogger _ => readme_FileLogger_logMessage message
  end.

Definition readme_reportMessage (loglevel message : string) : Method unit :=
  lv <- this_levels ;;
  t <- this_threshold ;;
  if getLevelNumber lv loglevel <=? t
  then (s <- formatMessage loglevel message ;; readme_logMessage s)
  else ret tt.

Definition readme_invoke (k : Call) : Method unit :=
  match k with
  | CError e => s <- formatError e ;; readme_logErrorMessage s
  | CLeveled c m => readme_reportMessage (label (severity c)) m
  end.

Fixpoint readme_run_all (ks : list Call) : Method unit :=
  match ks with
  | [] => ret tt
  | k :: rest => readme_invoke k ;; readme_run_all rest
  end.

Definition readme_new_FileLogger (o : FileLoggerOptions) : IO Logger :=
  let e := match opt_eol o with Some e => e | None => LF end in
  let super := init_ConsoleLogger (options o) in
  s <- createWriteStream (logfile o) "a" ;;
  ret (AFileLogger {| console := super; stream := s; eol := e |}).

Definition readme_session (o : FileLoggerOptions) (ks : list Call) : IO unit :=
  lg <- readme_new_FileLogger o ;;
  on lg (readme_run_all ks).

(** ** Vocabulary for sequences of calls *)

(** Lines written to the console, stdout and stderr together, in the
    order they were written. *)
Fixpoint console_lines (t : list Event) : list string :=
  match t with
  | [] => []
  | ConsoleLog s :: rest => s :: console_lines rest
  | ConsoleError s :: rest => s :: console_lines rest
  | _ :: rest => console_lines rest
  end.

(** The lines of the accepted calls among [ks], the first of them made
    at the [n]-th clock reading. *)
Fixpoint lines_from (lg : Logger) (clk : nat -> string) (n : nat)
         (ks : list Call) : list string :=
  match ks with
  | [] => []
  | k :: rest =>
      if accepted lg k
      then formatted (levels (as_machine lg)) (entry_level k) (clk n)
                     (entry_body k)
           :: lines_from lg clk (S n) rest
      else lines_from lg clk n rest
  end.

Definition count_accepted (lg : Logger) (ks : list Call) : nat :=
  List.length (filter (accepted lg) ks).

(** A chalk whose styles add nothing, as on a terminal without
    colors. *)
Definition colorless (c : Chalk) : Prop :=
  forall s,
    red c s = s /\ magenta c s = s /\ cyan c s = s /\ green c s = s
    /\ blue c s = s /\ gray c s = s /\ yellow c s = s.

(** The events a top-level program added to the world it started in. *)
Definition written {A : Type} (w : World) (r : outcome A * World) : list Event :=
  skipn (List.length (trace w)) (trace (snd r)).

Definition is_error (k : Call) : bool :=
  match k with
  | CError _ => true
  | CLeveled _ _ => false
  end.

(** Concatenation of a list of strings. *)
Fixpoint concat_strings (l : list string) : string :=
  match l with
  | [] => ""
  | s :: rest => s ++ concat_strings rest
  end.

(** The writes of a sequence of calls, for the two listings. *)
Fixpoint events_from (lg : Logger) (clk : nat -> string) (n : nat)
         (ks : list Call) : list Event :=
  match ks with
  | [] => []
  | k :: rest =>
      if accepted lg k
      then (sink_writes lg k (formatted (levels (as_machine lg))
                                        (entry_level k) (clk n) (entry_body k))
            ++ events_from lg clk (S n) rest)%list
      else events_from lg clk n rest
  end.

Definition readme_sink_writes (lg : Logger) (k : Call) (line : string)
  : list Event :=
  match lg with
  | AConsoleLogger _ => [console_event k line]
  | AFileLogger f =>
      [console_event k line;
       StreamWrite (stream f) (eol f ++ stripAnsi line)]
  end.

Fixpoint readme_events_from (lg : Logger) (clk : nat -> string) (n : nat)
         (ks : list Call) : list Event :=
  match ks with
  | [] => []
  | k :: rest =>
      if accepted lg k
      then (readme_sink_writes lg k
              (formatted (levels (as_machine lg))
                         (entry_level k) (clk n) (entry_body k))
            ++ readme_events_from lg clk (S n) rest)%list
      else readme_events_from lg clk n rest
  end.

(** An event a logger may cause by logging: a console line, or a write
    on its own stream. *)
Definition own_write (lg : Logger) (ev : Event) : Prop :=
  match ev, lg with
  | ConsoleLog _, _ => True
  | ConsoleError _, _ => True
  | StreamWrite s _, AFileLogger f => s = stream f
  | _, _ => False
  end.

(* ================================================================== *)
(** * Strings and the severity scale *)

Lemma toLowerCase_label (l : Level) : toLowerCase (label l) = label l.
Proof. destruct l; reflexivity. Qed.

Lemma getLevelNumber_label (l : Level) :
  getLevelNumber levels_init (label l) = rank l.
Proof. destruct l; reflexivity. Qed.

Lemma indexOf_from_miss (lv : list string) (x : string) (i : Z) :
  (forall y, In y lv -> y <> x) -> indexOf_from i lv x = -1.
Proof.
  revert i. induction lv as [|y lv IH]; intros i Hmiss; simpl.
  - reflexivity.
  - destruct (String.eqb_spec y x) as [Heq|Hne].
    + exfalso. apply (Hmiss y); [left; reflexivity | exact Heq].
    + apply IH. intros z Hz. apply Hmiss. right. exact Hz.
Qed.

Lemma In_levels_init (y : string) :
  In y levels_init -> exists l, y = label l.
Proof.
  unfold levels_init. simpl.
  intros [H|[H|[H|[H|[H|[H|[]]]]]]]; subst y.
  - exists Lerror; reflexivity.
  - exists Lwarn; reflexivity.
  - exists Linfo; reflexivity.
  - exists Lverbose; reflexivity.
  - exists Ldebug; reflexivity.
  - exists Lsilly; reflexivity.
Qed.

Lemma getLevelNumber_unrecognized (s : string) :
  ~ recognized s -> getLevelNumber levels_init s = -1.
Proof.
  intros Hun. unfold getLevelNumber, indexOf.
  apply indexOf_from_miss.
  intros y Hy Heq. apply In_levels_init in Hy. destruct Hy as [l Hl].
  apply Hun. exists l. congruence.
Qed.

Lemma getLevelNumber_recognized (s : string) (l : Level) :
  toLowerCase s = label l -> getLevelNumber levels_init s = rank l.
Proof.
  intros H. unfold getLevelNumber. rewrite H.
  destruct l; reflexivity.
Qed.

(** ** Padding *)

Lemma length_append (a b : string) :
  String.length (a ++ b) = (String.length a + String.length b)%nat.
Proof. induction a as [|c a IH]; simpl; [reflexivity | now rewrite IH]. Qed.

Lemma append_assoc (a b c : string) : (a ++ b) ++ c = a ++ (b ++ c).
Proof. induction a as [|x a IH]; simpl; [reflexivity | now rewrite IH]. Qed.

Lemma append_empty_r (a : string) : a ++ "" = a.
Proof. induction a as [|x a IH]; simpl; [reflexivity | now rewrite IH]. Qed.

Lemma length_spaces (n : nat) : String.length (spaces n) = n.
Proof. induction n as [|n IH]; simpl; [reflexivity | now rewrite IH]. Qed.

Lemma js_length_append (a b : string) :
  js_length (a ++ b) = (js_length a + js_length b)%nat.
Proof.
  induction a as [|c a IH]; simpl; [reflexivity | rewrite IH; lia].
Qed.

Lemma js_length_spaces (n : nat) : js_length (spaces n) = n.
Proof. induction n as [|n IH]; simpl; [reflexivity | now rewrite IH]. Qed.

(** The loop appends exactly the missing spaces when the fuel covers
    them. *)
Lemma rpad_loop_spaces (fuel : nat) (subject : string) (len : nat) :
  (len - js_length subject <= fuel)%nat ->
  rpad_loop fuel subject len = subject ++ spaces (len - js_length subject).
Proof.
  revert subject. induction fuel as [|fuel IH]; intros subject Hfuel; simpl.
  - replace (len - js_length subject)%nat with 0%nat by lia.
    simpl. now rewrite append_empty_r.
  - destruct (Nat.ltb_spec (js_length subject) len) as [Hlt|Hge].
    + assert (Hone : js_length (subject ++ " ") = S (js_length subject))
        by (rewrite js_length_append; simpl; lia).
      rewrite IH by (rewrite Hone; lia). rewrite Hone.
      replace (len - js_length subject)%nat
        with (S (len - S (js_length subject)))%nat by lia.
      rewrite append_assoc. reflexivity.
    + replace (len - js_length subject)%nat with 0%nat by lia.
      simpl. now rewrite append_empty_r.
Qed.

Lemma rpad_spaces (subject : string) (len : nat) :
  rpad subject len = subject ++ spaces (len - js_length subject).
Proof. unfold rpad. apply rpad_loop_spaces. lia. Qed.

Lemma length_rpad (subject : string) (len : nat) :
  js_length (rpad subject len) = Nat.max (js_length subject) len.
Proof. rewrite rpad_spaces, js_length_append, js_length_spaces. lia. Qed.

(* ================================================================== *)
(** * Runs of the methods *)

Create HintDb methods.

#[local] Hint Unfold run bind ret throw gets modify field liftIO
  console_log console_error stream_write emit after
  this_levels this_threshold this_colors this_stream this_eol
  logErrorMessage logMessage
  ConsoleLogger_logErrorMessage ConsoleLogger_logMessage
  FileLogger_logErrorMessage FileLogger_logMessage : methods.

Ltac step_methods := autounfold with methods; simpl.

Lemma constructed_well_formed (lg : Logger) : constructed lg -> well_formed lg.
Proof.
  intros [lvl H]. destruct H as [o w lg _ Hnew | o w lg _ Hnew].
  - simpl in Hnew. inversion Hnew. subst lg. split; reflexivity.
  - unfold new_FileLogger, createWriteStream, bind, throw in Hnew.
    destruct (has_nul (logfile o)); [discriminate Hnew|].
    simpl in Hnew. inversion Hnew. subst lg. split; reflexivity.
Qed.

Lemma run_formatError (lg : Logger) (e : JsError) (w : World) :
  run (formatError e) lg w
  = (Return (line_of lg (CError e) w), {| this := lg; world := tick w |}).
Proof. destruct lg; reflexivity. Qed.

Lemma run_formatMessage (lg : Logger) (c : Leveled) (m : string) (w : World) :
  well_formed lg ->
  run (formatMessage (label (severity c)) m) lg w
  = (Return (line_of lg (CLeveled c m) w), {| this := lg; world := tick w |}).
Proof.
  unfold well_formed, line_of.
  destruct lg as [[[t lv] cs] | [[[t lv] cs] st e]]; simpl;
    intros [Hlv Hcs]; subst lv cs; destruct c; reflexivity.
Qed.

Lemma run_logErrorMessage (lg : Logger) (e : JsError) (s : string) (w : World) :
  run (logErrorMessage s) lg (tick w)
  = (Return tt, {| this := lg; world := after w (sink_writes lg (CError e) s) |}).
Proof.
  destruct lg as [c | f]; step_methods.
  - reflexivity.
  - rewrite <- app_assoc. reflexivity.
Qed.

Lemma run_logMessage (lg : Logger) (c : Leveled) (m s : string) (w : World) :
  run (logMessage s) lg (tick w)
  = (Return tt,
     {| this := lg; world := after w (sink_writes lg (CLeveled c m) s) |}).
Proof.
  destruct lg as [cl | f]; step_methods.
  - reflexivity.
  - rewrite <- app_assoc. reflexivity.
Qed.

Lemma run_bind {A B : Type} (m : Method A) (k : A -> Method B)
      (lg lg' : Logger) (w w' : World) (a : A) :
  run m lg w = (Return a, {| this := lg'; world := w' |}) ->
  run (bind m k) lg w = run (k a) lg' w'.
Proof. unfold run, bind. intros ->. reflexivity. Qed.

(** [error] formats, then logs: one clock reading, one entry. *)
Lemma run_error (lg : Logger) (e : JsError) (w : World) :
  run (error e) lg w
  = (Return tt,
     {| this := lg;
        world := after w (sink_writes lg (CError e) (line_of lg (CError e) w)) |}).
Proof.
  unfold error.
  rewrite (run_bind _ _ _ _ _ _ _ (run_formatError lg e w)).
  apply run_logErrorMessage.
Qed.

Lemma run_reportMessage (lg : Logger) (c : Leveled) (m : string) (w : World) :
  well_formed lg ->
  run (reportMessage (label (severity c)) m) lg w
  = if accepted lg (CLeveled c m)
    then (Return tt,
          {| this := lg;
             world := after w (sink_writes lg (CLeveled c m)
                                           (line_of lg (CLeveled c m) w)) |})
    else (Return tt, {| this := lg; world := w |}).
Proof.
  intros Hwf. unfold reportMessage.
  rewrite (run_bind _ _ lg lg w w (levels (as_machine lg))) by reflexivity.
  rewrite (run_bind _ _ lg lg w w (threshold (as_machine lg))) by reflexivity.
  destruct Hwf as [Hlv Hcs]. rewrite Hlv, getLevelNumber_label.
  unfold accepted.
  destruct (rank (severity c) <=? threshold (as_machine lg)).
  - rewrite (run_bind _ _ _ _ _ _ _
               (run_formatMessage lg c m w (conj Hlv Hcs))).
    apply run_logMessage.
  - reflexivity.
Qed.

Lemma call_reportMessage (c : Leveled) (m : string) :
  call c m = reportMessage (label (severity c)) m.
Proof. destruct c; reflexivity. Qed.

(** Every public call, on a well-formed receiver. *)
Lemma run_invoke (lg : Logger) (k : Call) (w : World) :
  well_formed lg ->
  run (invoke k) lg w
  = if accepted lg k
    then (Return tt,
          {| this := lg;
             world := after w (sink_writes lg k (line_of lg k w)) |})
    else (Return tt, {| this := lg; world := w |}).
Proof.
  intros Hwf. destruct k as [e | c m]; simpl invoke.
  - apply run_error.
  - rewrite call_reportMessage. apply run_reportMessage. exact Hwf.
Qed.

Lemma since_after {A : Type} (w : World) (r : outcome A) (lg : Logger)
      (evs : list Event) :
  since w (r, {| this := lg; world := after w evs |}) = evs.
Proof.
  unfold since, after; simpl.
  rewrite skipn_app, skipn_all, Nat.sub_diag. reflexivity.
Qed.

(* ================================================================== *)
(** * The severity scale and the level tag *)

(** C7.  For each of the six severity labels, [levelTag] is the
    upper-cased label in parentheses followed by spaces up to a width of
    3 + the length of the longest label, "verbose": 10 characters.  The
    six tags are "(ERROR)   ", "(WARN)    ", "(INFO)    ", "(VERBOSE) ",
    "(DEBUG)   " and "(SILLY)   ", all of that same length. *)
Theorem levelTag_equal_width (o : LoggerMachineOptions) (l : Level) :
  let lv := levels (new_LoggerMachine o) in
  getLongestValue lv = "verbose"
  /\ levelTag lv (label l)
     = match l with
       | Lerror => "(ERROR)   "
       | Lwarn => "(WARN)    "
       | Linfo => "(INFO)    "
       | Lverbose => "(VERBOSE) "
       | Ldebug => "(DEBUG)   "
       | Lsilly => "(SILLY)   "
       end
  /\ toUpperCase (label l)
     = match l with
       | Lerror => "ERROR"
       | Lwarn => "WARN"
       | Linfo => "INFO"
       | Lverbose => "VERBOSE"
       | Ldebug => "DEBUG"
       | Lsilly => "SILLY"
       end
  /\ levelTag lv (label l)
     = "(" ++ toUpperCase (label l) ++ ")"
       ++ spaces (3 + js_length (getLongestValue lv) - 2
                  - js_length (label l))
  /\ js_length (levelTag lv (label l))
     = (3 + js_length (getLongestValue lv))%nat
  /\ js_length (levelTag lv (label l)) = 10%nat
  /\ String.length (levelTag lv (label l)) = 10%nat.
Proof.
  simpl levels. split; [reflexivity|].
  split; [destruct l; reflexivity|].
  split; [destruct l; reflexivity|].
  split; [|split; [|split]].
  - unfold levelTag. rewrite rpad_spaces. destruct l; reflexivity.
  - unfold levelTag. rewrite length_rpad. destruct l; reflexivity.
  - unfold levelTag. rewrite length_rpad. destruct l; reflexivity.
  - destruct l; reflexivity.
Qed.

(** C8.  On the label table of a logger, [getLevelNumber] gives the
    ranks error=0, warn=1, info=2, verbose=3, debug=4, silly=5, the
    positions of the labels in declaration order; and it gives the rank
    of a label to every string whose lower-casing is that label. *)
Theorem getLevelNumber_rank (o : LoggerMachineOptions) :
  let lv := levels (new_LoggerMachine o) in
  lv = map label all_levels
  /\ map (getLevelNumber lv) lv = [0; 1; 2; 3; 4; 5]
  /\ (forall l, getLevelNumber lv (label l) = rank l)
  /\ (forall s l, toLowerCase s = label l -> getLevelNumber lv s = rank l).
Proof.
  simpl levels.
  split; [reflexivity|]. split; [reflexivity|]. split.
  - apply getLevelNumber_label.
  - apply getLevelNumber_recognized.
Qed.

(* ================================================================== *)
(** * Construction *)

Lemma new_ConsoleLogger_returns (o : LoggerMachineOptions) (w : World) :
  new_ConsoleLogger o w = (Return (AConsoleLogger (init_ConsoleLogger o)), w).
Proof. reflexivity. Qed.

Lemma new_FileLogger_returns (o : FileLoggerOptions) (w : World) :
  has_nul (logfile o) = false ->
  let e := match opt_eol o with Some e => e | None => LF end in
  let s := {| path := logfile o; flags := "a" |} in
  new_FileLogger o w
  = (Return (AFileLogger {| console := init_ConsoleLogger (options o);
                            stream := s; eol := e |}),
     {| clock := clock w; reads := reads w;
        trace := trace w ++ [StreamOpen s; StreamWrite s e] |}).
Proof.
  intros Hpath. unfold new_FileLogger, createWriteStream. rewrite Hpath.
  step_methods. rewrite <- app_assoc. reflexivity.
Qed.

Lemma new_FileLogger_throws (o : FileLoggerOptions) (w : World) :
  has_nul (logfile o) = true ->
  exists msg, new_FileLogger o w = (Throw (TypeError msg), w).
Proof.
  intros Hpath. unfold new_FileLogger, createWriteStream. rewrite Hpath.
  eexists. reflexivity.
Qed.

Lemma new_FileLogger_returned (o : FileLoggerOptions) (w : World) (lg : Logger) :
  fst (new_FileLogger o w) = Return lg -> has_nul (logfile o) = false.
Proof.
  intros Hnew. destruct (has_nul (logfile o)) eqn:Hpath; [|reflexivity].
  destruct (new_FileLogger_throws o w Hpath) as [msg Hthrow].
  rewrite Hthrow in Hnew. discriminate Hnew.
Qed.

Lemma unrecognized_loud : ~ recognized "loud".
Proof. intros [l Hl]. destruct l; discriminate Hl. Qed.

(** C3, as the code has it.  An unrecognized label is not rejected:
    no configuration error is raised for it.  The console constructor
    returns normally; the file constructor returns normally whenever
    the stream can be opened, that is, for every [logfile] without a NUL
    character; and the logger they return has threshold -1.  The one
    error a constructor can raise is the TypeError for a [logfile] with
    a NUL character, whatever the label. *)
Theorem unknown_label_is_accepted (lvl : string) :
  ~ recognized lvl ->
  (forall o w, level o = lvl ->
     exists lg, new_ConsoleLogger o w = (Return lg, w)
                /\ threshold (as_machine lg) = -1)
  /\ (forall o w, level (options o) = lvl ->
       has_nul (logfile o) = false ->
       exists lg w', new_FileLogger o w = (Return lg, w')
                     /\ threshold (as_machine lg) = -1)
  /\ (forall o w lg, level (options o) = lvl ->
       fst (new_FileLogger o w) = Return lg ->
       threshold (as_machine lg) = -1)
  /\ (forall o w e, fst (new_FileLogger o w) = Throw e ->
       has_nul (logfile o) = true).
Proof.
  intros Hun. split; [|split; [|split]].
  - intros o w Hl. eexists. split; [apply new_ConsoleLogger_returns|].
    simpl. rewrite Hl. apply getLevelNumber_unrecognized. exact Hun.
  - intros o w Hl Hpath. eexists. eexists.
    split; [apply new_FileLogger_returns, Hpath|].
    simpl. rewrite Hl. apply getLevelNumber_unrecognized. exact Hun.
  - intros o w lg Hl Hnew.
    pose proof (new_FileLogger_returned o w lg Hnew) as Hpath.
    rewrite (new_FileLogger_returns o w Hpath) in Hnew. simpl in Hnew.
    inversion Hnew. simpl. rewrite Hl.
    apply getLevelNumber_unrecognized. exact Hun.
  - intros o w e Hthrow. destruct (has_nul (logfile o)) eqn:Hpath; [reflexivity|].
    rewrite (new_FileLogger_returns o w Hpath) in Hthrow. discriminate Hthrow.
Qed.

(** C3, as stated, fails: the label "loud" is none of the six, and
    constructing a console logger with it raises nothing. *)
Lemma unknown_label_not_rejected :
  ~ recognized "loud"
  /\ (forall e, fst (new_ConsoleLogger {| level := "loud" |} noon) <> Throw e)
  /\ fst (new_ConsoleLogger {| level := "loud" |} noon)
     = Return (AConsoleLogger
                 {| machine := {| threshold := -1; levels := levels_init |};
                    colors := colors_init |}).
Proof.
  split; [exact unrecognized_loud|]. split.
  - intros e H. discriminate H.
  - reflexivity.
Qed.

(* ================================================================== *)
(** * Triage *)

Lemma stdout_sink_writes (lg : Logger) (k : Call) (line : string) :
  stdout_of (sink_writes lg k line)
  = match k with CError _ => [] | CLeveled _ _ => [line] end.
Proof. destruct lg, k; reflexivity. Qed.

Lemma stderr_sink_writes (lg : Logger) (k : Call) (line : string) :
  stderr_of (sink_writes lg k line)
  = match k with CError _ => [line] | CLeveled _ _ => [] end.
Proof. destruct lg, k; reflexivity. Qed.

(** C1.  On every constructed logger, a call of warn, info, verbose,
    debug or silly with text [m] whose rank is at most the threshold is
    one call of [logMessage] on the formatted line (timestamp, level
    tag, [m]): it returns normally and puts exactly that line on the
    console.  A call whose rank is above the threshold returns normally
    and leaves receiver and world as they were. *)
Theorem leveled_call_triage
        (lg : Logger) (c : Leveled) (m : string) (w : World) :
  constructed lg ->
  let line :=
    yellow chalk ("[" ++ clock w (reads w) ++ "] ")
    ++ color_of (severity c) (levelTag levels_init (label (severity c)) ++ m) in
  (rank (severity c) <= threshold (as_machine lg) ->
   run (call c m) lg w = run (logMessage line) lg (tick w)
   /\ fst (run (call c m) lg w) = Return tt
   /\ stdout_of (since w (run (call c m) lg w)) = [line]
   /\ stderr_of (since w (run (call c m) lg w)) = [])
  /\ (rank (severity c) > threshold (as_machine lg) ->
      run (call c m) lg w = (Return tt, {| this := lg; world := w |})).
Proof.
  intros Hc line. apply constructed_well_formed in Hc.
  pose proof (run_invoke lg (CLeveled c m) w Hc) as Hrun.
  simpl invoke in Hrun. simpl accepted in Hrun.
  assert (Hline : line_of lg (CLeveled c m) w = line).
  { unfold line_of, formatted, line. destruct Hc as [-> _]. reflexivity. }
  rewrite Hline in Hrun.
  split; intros Hrank.
  - apply Z.leb_le in Hrank. rewrite Hrank in Hrun.
    rewrite Hrun, (run_logMessage lg c m line w), since_after.
    rewrite stdout_sink_writes, stderr_sink_writes.
    repeat split; reflexivity.
  - assert (Hgt : (rank (severity c) <=? threshold (as_machine lg)) = false)
      by (apply Z.leb_gt; lia).
    rewrite Hgt in Hrun. exact Hrun.
Qed.

(** C2.  On every logger, whatever its threshold, [error] is one call
    of [logErrorMessage] on the formatted error: it returns normally and
    puts exactly one line on the error console.  The threshold is never
    consulted. *)
Theorem error_always_emits (lg : Logger) (e : JsError) (w : World) :
  let line :=
    yellow chalk ("[" ++ clock w (reads w) ++ "] ")
    ++ red chalk (levelTag (levels (as_machine lg)) "error"
                  ++ js_string_of (stack e)) in
  run (error e) lg w = run (logErrorMessage line) lg (tick w)
  /\ fst (run (error e) lg w) = Return tt
  /\ stderr_of (since w (run (error e) lg w)) = [line]
  /\ stdout_of (since w (run (error e) lg w)) = [].
Proof.
  intros line.
  rewrite run_error, (run_logErrorMessage lg e line w), since_after.
  rewrite stdout_sink_writes, stderr_sink_writes.
  repeat split; reflexivity.
Qed.

Lemma threshold_minus_one_silent (lg : Logger) :
  well_formed lg -> threshold (as_machine lg) = -1 -> silent_except_errors lg.
Proof.
  intros Hwf Ht. split; [exact Ht|]. split.
  - intros c m w.
    pose proof (run_invoke lg (CLeveled c m) w Hwf) as Hrun.
    simpl in Hrun. rewrite Ht in Hrun.
    destruct c; exact Hrun.
  - intros e w. rewrite run_error, since_after, stderr_sink_writes.
    split; reflexivity.
Qed.

(** C9.  With an unrecognized label, the console constructor returns
    a logger, and so does the file constructor whenever the stream can
    be opened (a [logfile] without a NUL character; the label plays no
    part in that).  The logger's threshold is -1, each of warn, info,
    verbose, debug and silly returns normally without changing anything,
    and [error] still returns normally after writing its entry. *)
Theorem unknown_label_logger_is_silent (lvl : string) :
  ~ recognized lvl ->
  (forall o, level o = lvl -> threshold (new_LoggerMachine o) = -1)
  /\ (forall o w, level o = lvl ->
       exists lg, fst (new_ConsoleLogger o w) = Return lg
                  /\ silent_except_errors lg)
  /\ (forall o w, level (options o) = lvl ->
       has_nul (logfile o) = false ->
       exists lg, fst (new_FileLogger o w) = Return lg
                  /\ silent_except_errors lg)
  /\ (forall lg, constructed_with lvl lg -> silent_except_errors lg).
Proof.
  intros Hun.
  assert (Hminus : forall o, level o = lvl -> threshold (new_LoggerMachine o) = -1).
  { intros o Hl. simpl. rewrite Hl. apply getLevelNumber_unrecognized, Hun. }
  split; [exact Hminus|]. split; [|split].
  - intros o w Hl.
    exists (AConsoleLogger (init_ConsoleLogger o)). split; [reflexivity|].
    apply threshold_minus_one_silent; [split; reflexivity|].
    apply Hminus, Hl.
  - intros o w Hl Hpath.
    rewrite (new_FileLogger_returns o w Hpath). eexists. split; [reflexivity|].
    apply threshold_minus_one_silent; [split; reflexivity|].
    apply Hminus, Hl.
  - intros lg Hc. destruct Hc as [o w lg Hl Hnew | o w lg Hl Hnew].
    + simpl in Hnew. inversion Hnew.
      apply threshold_minus_one_silent; [split; reflexivity|].
      apply Hminus, Hl.
    + pose proof (new_FileLogger_returned o w lg Hnew) as Hpath.
      rewrite (new_FileLogger_returns o w Hpath) in Hnew. simpl in Hnew.
      inversion Hnew.
      apply threshold_minus_one_silent; [split; reflexivity|].
      apply Hminus, Hl.
Qed.

(* ================================================================== *)
(** * The file sink *)

Lemma since_invoke (lg : Logger) (k : Call) (w : World) :
  well_formed lg -> accepted lg k = true ->
  since w (run (invoke k) lg w) = sink_writes lg k (line_of lg k w).
Proof.
  intros Hwf Hacc. rewrite (run_invoke lg k w Hwf), Hacc.
  apply since_after.
Qed.

Lemma new_FileLogger_inv (o : FileLoggerOptions) (w0 : World) (lg : Logger) :
  fst (new_FileLogger o w0) = Return lg ->
  lg = AFileLogger {| console := init_ConsoleLogger (options o);
                      stream := {| path := logfile o; flags := "a" |};
                      eol := configured_eol o |}.
Proof.
  intros Hnew. pose proof (new_FileLogger_returned o w0 lg Hnew) as Hpath.
  rewrite (new_FileLogger_returns o w0 Hpath) in Hnew. simpl in Hnew.
  inversion Hnew. reflexivity.
Qed.

(** The method as [readme.md] lists it writes the line ending first. *)
Lemma run_readme_logMessage (f : FileLogger) (s : string) (w : World) :
  since w (run (readme_FileLogger_logMessage s) (AFileLogger f) w)
  = [ConsoleLog s; StreamWrite (stream f) (eol f ++ stripAnsi s)].
Proof.
  unfold since, readme_FileLogger_logMessage. step_methods.
  rewrite <- app_assoc, skipn_app, skipn_all, Nat.sub_diag. reflexivity.
Qed.

(** C6.  For every entry a file logger accepts, the call adds exactly
    two writes, in this order: the colored line on the console (stderr
    for an error, stdout otherwise), as the console logger does; then,
    on the stream opened for appending to [logfile], the line without
    its ANSI codes followed by the configured line ending, a newline by
    default. *)
Theorem file_sink_console_then_file
        (o : FileLoggerOptions) (w0 : World) (lg : Logger)
        (k : Call) (w : World) :
  fst (new_FileLogger o w0) = Return lg ->
  accepted lg k = true ->
  let line := line_of lg k w in
  let file := {| path := logfile o; flags := "a" |} in
  since w (run (invoke k) lg w)
  = [console_event k line;
     StreamWrite file (stripAnsi line
                       ++ match opt_eol o with Some e => e | None => LF end)]
  /\ since w (run (invoke k) (AConsoleLogger (as_console lg)) w)
     = [console_event k line].
Proof.
  intros Hnew Hacc line file.
  apply new_FileLogger_inv in Hnew. subst lg. split.
  - rewrite since_invoke; [reflexivity | split; reflexivity | exact Hacc].
  - rewrite since_invoke; [reflexivity | split; reflexivity | exact Hacc].
Qed.

(** C4.  Take a console logger and a file logger built from the same
    options and make the same accepted call on each in the same world.
    The console logger writes one line; removing its ANSI codes gives
    the text the file logger appends to its file for that call, up to
    the line ending that follows it. *)
Theorem stripped_console_line_is_file_line
        (o : FileLoggerOptions) (w0 : World) (lgC lgF : Logger)
        (k : Call) (w : World) :
  fst (new_ConsoleLogger (options o) w0) = Return lgC ->
  fst (new_FileLogger o w0) = Return lgF ->
  accepted lgF k = true ->
  exists line,
    (stdout_of (since w (run (invoke k) lgC w))
     ++ stderr_of (since w (run (invoke k) lgC w)))%list = [line]
    /\ appended_to (logfile o) (since w (run (invoke k) lgF w))
       = stripAnsi line ++ configured_eol o.
Proof.
  intros HC HF Hacc.
  apply new_FileLogger_inv in HF. subst lgF.
  simpl in HC. inversion HC. subst lgC. clear HC.
  exists (line_of (AConsoleLogger (init_ConsoleLogger (options o))) k w).
  rewrite !since_invoke by (try split; try reflexivity; exact Hacc).
  split.
  - rewrite stdout_sink_writes, stderr_sink_writes. destruct k; reflexivity.
  - destruct k; simpl; rewrite String.eqb_refl, append_empty_r; reflexivity.
Qed.

(* ================================================================== *)
(** * Formatting *)

(** C5, as the code has it.  [formatError] returns normally for every
    logger and every [Error] object; the text ends with [stack] when
    there is one and with "undefined" when there is none (the message is
    not used).  [formatMessage] returns normally for each of the five
    leveled calls of a constructed logger, whatever the text. *)
Theorem formatting_never_throws :
  (forall lg e w,
     run (formatError e) lg w
     = (Return (yellow chalk ("[" ++ clock w (reads w) ++ "] ")
                ++ red chalk (levelTag (levels (as_machine lg)) "error"
                              ++ match stack e with
                                 | Some text => text
                                 | None => "undefined"
                                 end)),
        {| this := lg; world := tick w |}))
  /\ (forall lg c m w,
        constructed lg ->
        exists text,
          run (formatMessage (label (severity c)) m) lg w
          = (Return text, {| this := lg; world := tick w |})).
Proof.
  split.
  - intros lg e w. rewrite run_formatError. reflexivity.
  - intros lg c m w Hc. eexists.
    apply run_formatMessage, constructed_well_formed, Hc.
Qed.

(* ================================================================== *)
(** * The receiver is never assigned *)

Lemma keeps_ret {A : Type} (a : A) : keeps_this (ret a).
Proof. intros st. reflexivity. Qed.

Lemma keeps_throw {A : Type} (e : exn) : keeps_this (@throw State A e).
Proof. intros st. reflexivity. Qed.

Lemma keeps_field {A : Type} (f : Logger -> A) : keeps_this (field f).
Proof. intros st. reflexivity. Qed.

Lemma keeps_liftIO {A : Type} (io : IO A) : keeps_this (liftIO io).
Proof. intros st. unfold liftIO. destruct (io (world st)). reflexivity. Qed.

Lemma keeps_bind {A B : Type} (m : Method A) (k : A -> Method B) :
  keeps_this m -> (forall a, keeps_this (k a)) -> keeps_this (bind m k).
Proof.
  intros Hm Hk st. unfold bind.
  specialize (Hm st). destruct (m st) as [[a | e] st']; simpl in Hm.
  - rewrite Hk. exact Hm.
  - exact Hm.
Qed.

Create HintDb frame.

#[local] Hint Resolve keeps_ret keeps_throw keeps_field keeps_liftIO : frame.

Ltac frame :=
  repeat first
    [ solve [ auto with frame ]
    | apply keeps_field
    | apply keeps_liftIO
    | apply keeps_bind; [| intros ? ]
    | match goal with
      | |- keeps_this (match ?x with _ => _ end) => destruct x
      | |- keeps_this (if ?b then _ else _) => destruct b
      end ].

Lemma keeps_timestamp : keeps_this timestamp.
Proof. unfold timestamp. frame. Qed.

Lemma keeps_formatError (e : JsError) : keeps_this (formatError e).
Proof.
  unfold formatError, ConsoleLogger_formatError, this_levels.
  pose proof keeps_timestamp. frame.
Qed.

Lemma keeps_formatMessage (lvl m : string) : keeps_this (formatMessage lvl m).
Proof.
  unfold formatMessage, ConsoleLogger_formatMessage, this_levels, this_colors.
  pose proof keeps_timestamp. frame.
Qed.

Lemma keeps_logErrorMessage (s : string) : keeps_this (logErrorMessage s).
Proof.
  unfold logErrorMessage, FileLogger_logErrorMessage,
    ConsoleLogger_logErrorMessage, this_stream, this_eol.
  frame.
Qed.

Lemma keeps_logMessage (s : string) : keeps_this (logMessage s).
Proof.
  unfold logMessage, FileLogger_logMessage, ConsoleLogger_logMessage,
    this_stream, this_eol.
  frame.
Qed.

Lemma keeps_reportMessage (lvl m : string) : keeps_this (reportMessage lvl m).
Proof.
  unfold reportMessage, this_levels, this_threshold.
  pose proof (keeps_formatMessage lvl m). pose proof keeps_logMessage.
  frame.
Qed.

(** C10.  Each of the six public calls, on any receiver and in any
    world, ends with the receiver it started with: threshold, label
    table, color table and, for a file logger, line ending and stream
    are what they were, whether the call returned or threw. *)
Theorem public_calls_keep_configuration (k : Call) (lg : Logger) (w : World) :
  this (snd (run (invoke k) lg w)) = lg.
Proof.
  assert (Hk : keeps_this (invoke k)).
  { destruct k as [e | c m]; simpl.
    - unfold error. pose proof (keeps_formatError e).
      pose proof keeps_logErrorMessage. frame.
    - rewrite call_reportMessage. apply keeps_reportMessage. }
  exact (Hk {| this := lg; world := w |}).
Qed.

(* ================================================================== *)
(** * More on the helpers *)

Lemma recognized_dec (s : string) :
  (exists l, toLowerCase s = label l) \/ ~ recognized s.
Proof.
  destruct (string_dec (toLowerCase s) "error") as [H|He]; [left; now exists Lerror|].
  destruct (string_dec (toLowerCase s) "warn") as [H|Hw]; [left; now exists Lwarn|].
  destruct (string_dec (toLowerCase s) "info") as [H|Hi]; [left; now exists Linfo|].
  destruct (string_dec (toLowerCase s) "verbose") as [H|Hv]; [left; now exists Lverbose|].
  destruct (string_dec (toLowerCase s) "debug") as [H|Hd]; [left; now exists Ldebug|].
  destruct (string_dec (toLowerCase s) "silly") as [H|Hs]; [left; now exists Lsilly|].
  right. intros [l Hl]. destruct l; simpl in Hl; contradiction.
Qed.

Lemma rank_inj (a b : Level) : rank a = rank b -> a = b.
Proof. destruct a, b; simpl; intros H; try reflexivity; discriminate H. Qed.

Lemma rank_range (l : Level) : 0 <= rank l <= 5.
Proof. destruct l; simpl; lia. Qed.

(** X1.  The threshold a constructor stores is the rank of the label it is
    given, whatever the case of its letters, and -1 for any other
    string; it always lies between -1 and 5. *)
Theorem threshold_of_level (o : LoggerMachineOptions) :
  let t := threshold (new_LoggerMachine o) in
  -1 <= t <= 5
  /\ (t = -1 <-> ~ recognized (level o))
  /\ (forall l, t = rank l <-> toLowerCase (level o) = label l).
Proof.
  simpl. destruct (recognized_dec (level o)) as [[l Hl] | Hun].
  - pose proof (getLevelNumber_recognized _ _ Hl) as Ht.
    pose proof (rank_range l) as Hr. rewrite Ht.
    split; [lia|]. split.
    + split; [lia|]. intros Hun. exfalso. apply Hun. now exists l.
    + intros l'. split.
      * intros Heq. apply rank_inj in Heq. now subst l'.
      * intros Hl'. rewrite Hl in Hl'.
        assert (l = l') by (destruct l, l'; simpl in Hl';
                            try reflexivity; discriminate Hl').
        now subst l'.
  - pose proof (getLevelNumber_unrecognized _ Hun) as Ht. rewrite Ht.
    split; [lia|]. split.
    + split; intros _; [exact Hun | reflexivity].
    + intros l. pose proof (rank_range l). split; [lia|].
      intros Hl. exfalso. apply Hun. now exists l.
Qed.

(** The loop of [getLongestValue], from any starting value. *)
Lemma longest_from (arr : list string) (acc : string) :
  let r := fold_left
             (fun longest subject =>
                if (js_length longest <? js_length subject)%nat
                then subject else longest) arr acc in
  (js_length acc <= js_length r)%nat
  /\ (forall s, In s arr -> (js_length s <= js_length r)%nat)
  /\ (r = acc
      \/ exists pre post,
           arr = (pre ++ r :: post)%list
           /\ (js_length acc < js_length r)%nat
           /\ forall s, In s pre -> (js_length s < js_length r)%nat).
Proof.
  revert acc. induction arr as [|x arr IH]; intros acc; simpl.
  - split; [lia|]. split; [intros s []|]. left. reflexivity.
  - destruct (Nat.ltb_spec (js_length acc) (js_length x)) as [Hlt|Hge].
    + destruct (IH x) as (Hacc & Hall & Hwhere). split; [lia|]. split.
      * intros s [Hs|Hs]; [subst s; exact Hacc | apply Hall, Hs].
      * right. destruct Hwhere as [Hr | (pre & post & Harr & Hlen & Hpre)].
        -- exists [], arr. rewrite Hr. simpl. split; [reflexivity|].
           split; [exact Hlt|]. intros s [].
        -- exists (x :: pre), post. simpl. rewrite <- Harr.
           split; [reflexivity|]. split; [lia|].
           intros s [Hs|Hs]; [subst s; exact Hlen | apply Hpre, Hs].
    + destruct (IH acc) as (Hacc & Hall & Hwhere). split; [exact Hacc|]. split.
      * intros s [Hs|Hs]; [subst s; lia | apply Hall, Hs].
      * destruct Hwhere as [Hr | (pre & post & Harr & Hlen & Hpre)].
        -- left. exact Hr.
        -- right. exists (x :: pre), post. simpl. rewrite <- Harr.
           split; [reflexivity|]. split; [exact Hlen|].
           intros s [Hs|Hs]; [subst s; lia | apply Hpre, Hs].
Qed.

(** X2.  Lengths are counted as [.length] counts them, in UTF-16 code
    units.  [getLongestValue] returns a string at least as long as every
    element of the array.  It is the empty string when the array has no
    non-empty element; otherwise it is an element of the array, the
    first one of that length. *)
Theorem getLongestValue_first_longest (arr : list string) :
  let r := getLongestValue arr in
  (forall s, In s arr -> (js_length s <= js_length r)%nat)
  /\ (r = ""
      \/ exists pre post,
           arr = (pre ++ r :: post)%list
           /\ forall s, In s pre -> (js_length s < js_length r)%nat).
Proof.
  destruct (longest_from arr "") as (_ & Hall & Hwhere).
  split; [exact Hall|].
  destruct Hwhere as [Hr | (pre & post & Harr & _ & Hpre)].
  - left. exact Hr.
  - right. exists pre, post. split; [exact Harr | exact Hpre].
Qed.

(** X3.  Lengths are counted as [.length] counts them, in UTF-16 code
    units.  [rpad] appends spaces and nothing else: the result is the
    subject followed by as many spaces as it is short of [len], so its
    length is the larger of the two lengths, and a subject of [len] characters or
    more comes back unchanged, never cut. *)
Theorem rpad_never_truncates (subject : string) (len : nat) :
  rpad subject len = subject ++ spaces (len - js_length subject)
  /\ js_length (rpad subject len) = Nat.max (js_length subject) len
  /\ ((len <= js_length subject)%nat -> rpad subject len = subject).
Proof.
  split; [apply rpad_spaces|]. split; [apply length_rpad|].
  intros Hle. rewrite rpad_spaces.
  replace (len - js_length subject)%nat with 0%nat by lia.
  apply append_empty_r.
Qed.

(* ================================================================== *)
(** * Sequences of calls *)

Lemma since_trace {A : Type} (w : World) (r : outcome A) (lg : Logger)
      (clk : nat -> string) (n : nat) (evs : list Event) :
  since w (r, {| this := lg;
                 world := {| clock := clk; reads := n;
                             trace := trace w ++ evs |} |}) = evs.
Proof.
  unfold since; simpl.
  rewrite skipn_app, skipn_all, Nat.sub_diag. reflexivity.
Qed.

Lemma count_accepted_cons (lg : Logger) (k : Call) (ks : list Call) :
  count_accepted lg (k :: ks)
  = if accepted lg k then S (count_accepted lg ks) else count_accepted lg ks.
Proof. unfold count_accepted. simpl. destruct (accepted lg k); reflexivity. Qed.

(** The calls of a sequence happen one after the other, each accepted
    one at the next clock reading. *)
Lemma run_run_all (lg : Logger) (ks : list Call) (w : World) :
  well_formed lg ->
  run (run_all ks) lg w
  = (Return tt,
     {| this := lg;
        world := {| clock := clock w;
                    reads := reads w + count_accepted lg ks;
                    trace := trace w ++ events_from lg (clock w) (reads w) ks |} |}).
Proof.
  intros Hwf. revert w. induction ks as [|k ks IH]; intros w.
  - destruct w as [clk n t]. unfold run, count_accepted. simpl.
    rewrite Nat.add_0_r, app_nil_r. reflexivity.
  - simpl run_all. pose proof (run_invoke lg k w Hwf) as Hk.
    rewrite count_accepted_cons. simpl events_from.
    destruct (accepted lg k).
    + rewrite (run_bind _ _ _ _ _ _ _ Hk), IH. unfold after. simpl.
      rewrite <- app_assoc, Nat.add_succ_r. reflexivity.
    + rewrite (run_bind _ _ _ _ _ _ _ Hk), IH. reflexivity.
Qed.

Lemma run_readme_invoke (lg : Logger) (k : Call) (w : World) :
  well_formed lg ->
  run (readme_invoke k) lg w
  = if accepted lg k
    then (Return tt,
          {| this := lg;
             world := after w (readme_sink_writes lg k (line_of lg k w)) |})
    else (Return tt, {| this := lg; world := w |}).
Proof.
  intros Hwf. destruct k as [e | c m]; simpl readme_invoke; simpl accepted.
  - rewrite (run_bind _ _ _ _ _ _ _ (run_formatError lg e w)).
    destruct lg as [cl | f]; unfold readme_logErrorMessage,
      readme_FileLogger_logErrorMessage; step_methods.
    + reflexivity.
    + rewrite <- app_assoc. reflexivity.
  - unfold readme_reportMessage.
    rewrite (run_bind _ _ lg lg w w (levels (as_machine lg))) by reflexivity.
    rewrite (run_bind _ _ lg lg w w (threshold (as_machine lg))) by reflexivity.
    pose proof Hwf as [Hlv Hcs]. rewrite Hlv, getLevelNumber_label.
    destruct (rank (severity c) <=? threshold (as_machine lg)); [|reflexivity].
    rewrite (run_bind _ _ _ _ _ _ _ (run_formatMessage lg c m w Hwf)).
    destruct lg as [cl | f]; unfold readme_logMessage,
      readme_FileLogger_logMessage; step_methods.
    + reflexivity.
    + rewrite <- app_assoc. reflexivity.
Qed.

Lemma run_readme_run_all (lg : Logger) (ks : list Call) (w : World) :
  well_formed lg ->
  run (readme_run_all ks) lg w
  = (Return tt,
     {| this := lg;
        world := {| clock := clock w;
                    reads := reads w + count_accepted lg ks;
                    trace := trace w
                             ++ readme_events_from lg (clock w) (reads w) ks |} |}).
Proof.
  intros Hwf. revert w. induction ks as [|k ks IH]; intros w.
  - destruct w as [clk n t]. unfold run, count_accepted. simpl.
    rewrite Nat.add_0_r, app_nil_r. reflexivity.
  - simpl readme_run_all. pose proof (run_readme_invoke lg k w Hwf) as Hk.
    rewrite count_accepted_cons. simpl readme_events_from.
    destruct (accepted lg k).
    + rewrite (run_bind _ _ _ _ _ _ _ Hk), IH. unfold after. simpl.
      rewrite <- app_assoc, Nat.add_succ_r. reflexivity.
    + rewrite (run_bind _ _ _ _ _ _ _ Hk), IH. reflexivity.
Qed.

Lemma console_lines_app (a b : list Event) :
  console_lines (a ++ b) = (console_lines a ++ console_lines b)%list.
Proof.
  induction a as [|ev a IH]; simpl; [reflexivity|].
  destruct ev; simpl; rewrite IH; reflexivity.
Qed.

Lemma appended_to_app (p : string) (a b : list Event) :
  appended_to p (a ++ b) = appended_to p a ++ appended_to p b.
Proof.
  induction a as [|ev a IH]; simpl; [reflexivity|].
  destruct ev; simpl; try exact IH.
  destruct (String.eqb (path s) p); [|exact IH].
  rewrite IH, append_assoc. reflexivity.
Qed.

Lemma console_lines_sink_writes (lg : Logger) (k : Call) (line : string) :
  console_lines (sink_writes lg k line) = [line].
Proof. destruct lg, k; reflexivity. Qed.

Lemma console_lines_readme_sink_writes (lg : Logger) (k : Call) (line : string) :
  console_lines (readme_sink_writes lg k line) = [line].
Proof. destruct lg, k; reflexivity. Qed.

Lemma console_lines_events_from (lg : Logger) (clk : nat -> string) (n : nat)
      (ks : list Call) :
  console_lines (events_from lg clk n ks) = lines_from lg clk n ks.
Proof.
  revert n. induction ks as [|k ks IH]; intros n; simpl; [reflexivity|].
  destruct (accepted lg k); [|apply IH].
  rewrite console_lines_app, console_lines_sink_writes, IH. reflexivity.
Qed.

Lemma console_lines_readme_events_from (lg : Logger) (clk : nat -> string)
      (n : nat) (ks : list Call) :
  console_lines (readme_events_from lg clk n ks) = lines_from lg clk n ks.
Proof.
  revert n. induction ks as [|k ks IH]; intros n; simpl; [reflexivity|].
  destruct (accepted lg k); [|apply IH].
  rewrite console_lines_app, console_lines_readme_sink_writes, IH. reflexivity.
Qed.

Lemma length_lines_from (lg : Logger) (clk : nat -> string) (n : nat)
      (ks : list Call) :
  List.length (lines_from lg clk n ks) = count_accepted lg ks.
Proof.
  revert n. induction ks as [|k ks IH]; intros n; [reflexivity|].
  rewrite count_accepted_cons. simpl.
  destruct (accepted lg k); simpl; rewrite IH; reflexivity.
Qed.

Lemma appended_sink_writes (f : FileLogger) (k : Call) (line : string) :
  appended_to (path (stream f)) (sink_writes (AFileLogger f) k line)
  = stripAnsi line ++ eol f.
Proof.
  destruct k; simpl; rewrite String.eqb_refl, append_empty_r; reflexivity.
Qed.

Lemma appended_readme_sink_writes (f : FileLogger) (k : Call) (line : string) :
  appended_to (path (stream f)) (readme_sink_writes (AFileLogger f) k line)
  = eol f ++ stripAnsi line.
Proof.
  destruct k; simpl; rewrite String.eqb_refl, append_empty_r; reflexivity.
Qed.

(** The file text of a sequence, for the two listings. *)
Lemma appended_events_from (f : FileLogger) (clk : nat -> string) (n : nat)
      (ks : list Call) :
  appended_to (path (stream f)) (events_from (AFileLogger f) clk n ks)
  = concat_strings (map (fun line => stripAnsi line ++ eol f)
                        (lines_from (AFileLogger f) clk n ks)).
Proof.
  revert n. induction ks as [|k ks IH]; intros n; [reflexivity|].
  cbn [events_from lines_from].
  destruct (accepted (AFileLogger f) k); [|apply IH].
  rewrite appended_to_app, IH, appended_sink_writes. reflexivity.
Qed.

Lemma appended_readme_events_from (f : FileLogger) (clk : nat -> string)
      (n : nat) (ks : list Call) :
  appended_to (path (stream f)) (readme_events_from (AFileLogger f) clk n ks)
  = concat_strings (map (fun line => eol f ++ stripAnsi line)
                        (lines_from (AFileLogger f) clk n ks)).
Proof.
  revert n. induction ks as [|k ks IH]; intros n; [reflexivity|].
  cbn [readme_events_from lines_from].
  destruct (accepted (AFileLogger f) k); [|apply IH].
  rewrite appended_to_app, IH, appended_readme_sink_writes.
  cbn [map concat_strings]. rewrite append_assoc. reflexivity.
Qed.

(** Moving the line ending from behind each text to its front. *)
Lemma eol_shift (e : string) (strip : string -> string) (lines : list string) :
  e ++ concat_strings (map (fun line => strip line ++ e) lines)
  = concat_strings (map (fun line => e ++ strip line) lines) ++ e.
Proof.
  induction lines as [|x lines IH]; simpl.
  - now rewrite append_empty_r.
  - rewrite !append_assoc. rewrite IH. reflexivity.
Qed.

Lemma Forall_own_write_events (lg : Logger) (clk : nat -> string) (n : nat)
      (ks : list Call) :
  Forall (own_write lg) (events_from lg clk n ks).
Proof.
  revert n. induction ks as [|k ks IH]; intros n; simpl; [constructor|].
  destruct (accepted lg k); [|apply IH].
  apply Forall_app. split; [|apply IH].
  destruct lg as [c | f], k; simpl; repeat constructor.
Qed.

(** X6.  A sequence of calls on a constructed logger runs to its end: no
    call throws, the receiver is unchanged, each accepted call reads the
    clock once and a rejected call does not read it, and the console
    gets the lines of the accepted calls in call order, each stamped
    with the next clock reading. *)
Theorem calls_in_order (lg : Logger) (ks : list Call) (w : World) :
  constructed lg ->
  let r := run (run_all ks) lg w in
  fst r = Return tt
  /\ this (snd r) = lg
  /\ reads (world (snd r)) = (reads w + count_accepted lg ks)%nat
  /\ console_lines (since w r) = lines_from lg (clock w) (reads w) ks
  /\ List.length (console_lines (since w r)) = count_accepted lg ks.
Proof.
  intros Hc r. apply constructed_well_formed in Hc.
  subst r. rewrite (run_run_all lg ks w Hc), since_trace.
  rewrite console_lines_events_from, length_lines_from.
  repeat split; reflexivity.
Qed.

(** X8.  Whatever calls are made on a constructed file logger, the text
    they append to its file is its console lines in the order they were
    written, each without its ANSI codes and followed by the line
    ending. *)
Theorem file_mirrors_console (f : FileLogger) (ks : list Call) (w : World) :
  constructed (AFileLogger f) ->
  let evs := since w (run (run_all ks) (AFileLogger f) w) in
  appended_to (path (stream f)) evs
  = concat_strings (map (fun line => stripAnsi line ++ eol f)
                        (console_lines evs)).
Proof.
  intros Hc evs. apply constructed_well_formed in Hc.
  subst evs. rewrite (run_run_all _ ks w Hc), since_trace.
  rewrite console_lines_events_from. apply appended_events_from.
Qed.

(** X9.  Logging never opens a stream and never writes to a stream other
    than the one the file logger opened when it was constructed; a
    console logger writes to no stream at all. *)
Theorem logging_writes_only_own_outputs
        (lg : Logger) (ks : list Call) (w : World) :
  constructed lg ->
  Forall (own_write lg) (since w (run (run_all ks) lg w))
  /\ (forall p, (forall f, lg = AFileLogger f -> path (stream f) <> p) ->
       appended_to p (since w (run (run_all ks) lg w)) = "").
Proof.
  intros Hc. apply constructed_well_formed in Hc.
  rewrite (run_run_all lg ks w Hc), since_trace.
  pose proof (Forall_own_write_events lg (clock w) (reads w) ks) as Hown.
  split; [exact Hown|].
  intros p Hp. induction Hown as [|ev evs Hev _ IH]; [reflexivity|].
  destruct ev as [line | line | s | s chunk]; simpl; try exact IH.
  destruct lg as [c | f]; simpl in Hev; [contradiction|]. subst s.
  destruct (String.eqb_spec (path (stream f)) p) as [Heq | Hne].
  - exfalso. exact (Hp f eq_refl Heq).
  - exact IH.
Qed.

Lemma stdout_of_app (a b : list Event) :
  stdout_of (a ++ b) = (stdout_of a ++ stdout_of b)%list.
Proof.
  induction a as [|ev a IH]; simpl; [reflexivity|].
  destruct ev; simpl; rewrite IH; reflexivity.
Qed.

Lemma stderr_of_app (a b : list Event) :
  stderr_of (a ++ b) = (stderr_of a ++ stderr_of b)%list.
Proof.
  induction a as [|ev a IH]; simpl; [reflexivity|].
  destruct ev; simpl; rewrite IH; reflexivity.
Qed.

Lemma stdout_events_agree (lg : Logger) (clk : nat -> string) (n : nat)
      (ks : list Call) :
  stdout_of (events_from lg clk n ks) = stdout_of (readme_events_from lg clk n ks).
Proof.
  revert n. induction ks as [|k ks IH]; intros n; [reflexivity|].
  cbn [events_from readme_events_from].
  destruct (accepted lg k); [|apply IH].
  rewrite !stdout_of_app, IH. f_equal. destruct lg, k; reflexivity.
Qed.

Lemma stderr_events_agree (lg : Logger) (clk : nat -> string) (n : nat)
      (ks : list Call) :
  stderr_of (events_from lg clk n ks) = stderr_of (readme_events_from lg clk n ks).
Proof.
  revert n. induction ks as [|k ks IH]; intros n; [reflexivity|].
  cbn [events_from readme_events_from].
  destruct (accepted lg k); [|apply IH].
  rewrite !stderr_of_app, IH. f_equal. destruct lg, k; reflexivity.
Qed.

Lemma written_trace {A : Type} (w : World) (r : outcome A)
      (clk : nat -> string) (n : nat) (evs : list Event) :
  written w (r, {| clock := clk; reads := n; trace := trace w ++ evs |}) = evs.
Proof.
  unfold written; simpl.
  rewrite skipn_app, skipn_all, Nat.sub_diag. reflexivity.
Qed.

Lemma session_runs (o : FileLoggerOptions) (ks : list Call) (w : World) :
  has_nul (logfile o) = false ->
  let f := {| console := init_ConsoleLogger (options o);
              stream := {| path := logfile o; flags := "a" |};
              eol := configured_eol o |} in
  session o ks w
  = (Return tt,
     {| clock := clock w;
        reads := reads w + count_accepted (AFileLogger f) ks;
        trace := trace w
                 ++ [StreamOpen (stream f); StreamWrite (stream f) (eol f)]
                 ++ events_from (AFileLogger f) (clock w) (reads w) ks |}).
Proof.
  intros Hpath f. unfold session. unfold bind at 1.
  rewrite (new_FileLogger_returns o w Hpath). cbv zeta. unfold on.
  fold (configured_eol o). fold f.
  rewrite run_run_all by (split; reflexivity).
  simpl. rewrite <- app_assoc. reflexivity.
Qed.

Lemma session_throws (o : FileLoggerOptions) (ks : list Call) (w : World) :
  has_nul (logfile o) = true ->
  exists msg, session o ks w = (Throw (TypeError msg), w).
Proof.
  intros Hpath. unfold session. unfold bind at 1.
  destruct (new_FileLogger_throws o w Hpath) as [msg ->].
  exists msg. reflexivity.
Qed.

Lemma readme_session_runs (o : FileLoggerOptions) (ks : list Call) (w : World) :
  has_nul (logfile o) = false ->
  let f := {| console := init_ConsoleLogger (options o);
              stream := {| path := logfile o; flags := "a" |};
              eol := configured_eol o |} in
  readme_session o ks w
  = (Return tt,
     {| clock := clock w;
        reads := reads w + count_accepted (AFileLogger f) ks;
        trace := trace w
                 ++ [StreamOpen (stream f)]
                 ++ readme_events_from (AFileLogger f) (clock w) (reads w) ks |}).
Proof.
  intros Hpath f. unfold readme_session. unfold bind at 1.
  unfold readme_new_FileLogger, createWriteStream. rewrite Hpath. step_methods.
  unfold on. fold (configured_eol o). fold f.
  rewrite run_readme_run_all by (split; reflexivity).
  simpl. rewrite <- app_assoc. reflexivity.
Qed.

Lemma readme_session_throws (o : FileLoggerOptions) (ks : list Call) (w : World) :
  has_nul (logfile o) = true ->
  exists msg, readme_session o ks w = (Throw (TypeError msg), w).
Proof.
  intros Hpath. unfold readme_session. unfold bind at 1.
  unfold readme_new_FileLogger, createWriteStream. rewrite Hpath.
  eexists. reflexivity.
Qed.

(** X10.  A program that constructs a file logger and makes calls on
    it.  When [logfile] has no NUL character the program ends normally;
    it opens the file once, for appending, before any other write, and
    appends to it one line ending, written by the constructor, and then,
    for each accepted call in order, the line without ANSI codes
    followed by the line ending.  When [logfile] has a NUL character the
    constructor throws a TypeError and nothing at all is written. *)
Theorem session_file_text (o : FileLoggerOptions) (ks : list Call) (w : World) :
  let evs := written w (session o ks w) in
  (has_nul (logfile o) = false ->
   fst (session o ks w) = Return tt
   /\ hd_error evs = Some (StreamOpen {| path := logfile o; flags := "a" |})
   /\ appended_to (logfile o) evs
      = configured_eol o
        ++ concat_strings (map (fun line => stripAnsi line ++ configured_eol o)
                               (console_lines evs)))
  /\ (has_nul (logfile o) = true ->
      exists msg, session o ks w = (Throw (TypeError msg), w)).
Proof.
  intros evs. subst evs. split; intros Hpath.
  - rewrite (session_runs o ks w Hpath). cbv zeta.
    rewrite written_trace. split; [reflexivity|]. split; [reflexivity|].
    cbn [app console_lines appended_to path stream eol].
    rewrite String.eqb_refl, console_lines_events_from.
    f_equal.
    exact (appended_events_from
             {| console := init_ConsoleLogger (options o);
                stream := {| path := logfile o; flags := "a" |};
                eol := configured_eol o |} (clock w) (reads w) ks).
  - apply session_throws, Hpath.
Qed.

(** X11.  The listing in [readme.md] and [logboom.ts], for the same
    options, calls and world.  When [logfile] has no NUL character both
    write the same console lines, and the text [logboom.ts] appends to
    the log file is the text the listing appends, followed by the line
    ending: they differ in the file by one trailing line ending.  When
    [logfile] has a NUL character both constructors throw a TypeError
    and neither program writes anything. *)
Theorem readme_listing_lacks_trailing_eol
        (o : FileLoggerOptions) (ks : list Call) (w : World) :
  let now := written w (session o ks w) in
  let listed := written w (readme_session o ks w) in
  (has_nul (logfile o) = false ->
   console_lines now = console_lines listed
   /\ stdout_of now = stdout_of listed
   /\ stderr_of now = stderr_of listed
   /\ appended_to (logfile o) now
      = appended_to (logfile o) listed ++ configured_eol o)
  /\ (has_nul (logfile o) = true ->
      exists msg msg',
        session o ks w = (Throw (TypeError msg), w)
        /\ readme_session o ks w = (Throw (TypeError msg'), w)).
Proof.
  intros now listed. subst now listed. split; intros Hpath.
  - rewrite (session_runs o ks w Hpath), (readme_session_runs o ks w Hpath).
    cbv zeta. rewrite !written_trace.
    set (f := {| console := init_ConsoleLogger (options o);
                 stream := {| path := logfile o; flags := "a" |};
                 eol := configured_eol o |}).
    cbn [app console_lines stdout_of stderr_of appended_to path stream eol].
    rewrite String.eqb_refl.
    rewrite console_lines_events_from, console_lines_readme_events_from.
    split; [reflexivity|].
    pose proof (appended_events_from f (clock w) (reads w) ks) as Hnow.
    pose proof (appended_readme_events_from f (clock w) (reads w) ks) as Hlisted.
    cbn [path stream eol f] in Hnow, Hlisted.
    rewrite Hnow, Hlisted.
    split; [apply stdout_events_agree|].
    split; [apply stderr_events_agree|].
    apply eol_shift.
  - destruct (session_throws o ks w Hpath) as [msg Hs].
    destruct (readme_session_throws o ks w Hpath) as [msg' Hr].
    exists msg, msg'. split; assumption.
Qed.

(* ================================================================== *)
(** * Thresholds *)

Lemma constructed_with_threshold (lvl : string) (lg : Logger) :
  constructed_with lvl lg ->
  well_formed lg /\ threshold (as_machine lg) = getLevelNumber levels_init lvl.
Proof.
  intros H. destruct H as [o w lg Hl Hnew | o w lg Hl Hnew].
  - simpl in Hnew. inversion Hnew. subst lg lvl. repeat split.
  - pose proof (new_FileLogger_returned o w lg Hnew) as Hpath.
    rewrite (new_FileLogger_returns o w Hpath) in Hnew. simpl in Hnew.
    inversion Hnew. subst lg lvl. repeat split.
Qed.

Lemma count_accepted_all (lg : Logger) (ks : list Call) :
  (forall k, accepted lg k = true) -> count_accepted lg ks = List.length ks.
Proof.
  intros Hall. induction ks as [|k ks IH]; [reflexivity|].
  rewrite count_accepted_cons, Hall, IH. reflexivity.
Qed.

(** X12.  The two ends of the scale.  On a logger constructed with "silly",
    in any case of letters, every call writes its line: a sequence of
    calls gives as many console lines as calls.  On a logger constructed
    with "error", warn, info, verbose, debug and silly all return
    without writing anything. *)
Theorem extreme_thresholds (lvl : string) (lg : Logger) :
  constructed_with lvl lg ->
  (toLowerCase lvl = "silly" ->
   forall ks w,
     List.length (console_lines (since w (run (run_all ks) lg w)))
     = List.length ks)
  /\ (toLowerCase lvl = "error" ->
      forall c m w, run (call c m) lg w = (Return tt, {| this := lg; world := w |})).
Proof.
  intros Hc. apply constructed_with_threshold in Hc. destruct Hc as [Hwf Ht].
  split; intros Hl.
  - intros ks w.
    rewrite (getLevelNumber_recognized lvl Lsilly Hl) in Ht. simpl in Ht.
    rewrite (run_run_all lg ks w Hwf), since_trace.
    rewrite console_lines_events_from, length_lines_from.
    apply count_accepted_all. intros [e | c m]; simpl; [reflexivity|].
    rewrite Ht. destruct c; reflexivity.
  - intros c m w.
    rewrite (getLevelNumber_recognized lvl Lerror Hl) in Ht. simpl in Ht.
    pose proof (run_invoke lg (CLeveled c m) w Hwf) as Hrun.
    simpl in Hrun. rewrite Ht in Hrun. destruct c; exact Hrun.
Qed.

Lemma console_lines_invoke (lg : Logger) (k : Call) (w : World) :
  well_formed lg ->
  console_lines (since w (run (invoke k) lg w))
  = if accepted lg k then [line_of lg k w] else [].
Proof.
  intros Hwf. rewrite (run_invoke lg k w Hwf).
  destruct (accepted lg k).
  - rewrite since_after. apply console_lines_sink_writes.
  - unfold since. simpl. rewrite skipn_all. reflexivity.
Qed.

(** X13.  Raising the threshold loses nothing: a line that a call puts on
    the console of one constructed logger is put, unchanged, on the
    console of every constructed logger whose threshold is at least as
    high, console logger or file logger. *)
Theorem raising_threshold_keeps_entries
        (lg1 lg2 : Logger) (k : Call) (w : World) (line : string) :
  constructed lg1 -> constructed lg2 ->
  threshold (as_machine lg1) <= threshold (as_machine lg2) ->
  console_lines (since w (run (invoke k) lg1 w)) = [line] ->
  console_lines (since w (run (invoke k) lg2 w)) = [line].
Proof.
  intros H1 H2 Hle. apply constructed_well_formed in H1, H2.
  rewrite (console_lines_invoke lg1 k w H1), (console_lines_invoke lg2 k w H2).
  assert (Hline : line_of lg2 k w = line_of lg1 k w).
  { unfold line_of. destruct H1 as [-> _], H2 as [-> _]. reflexivity. }
  rewrite Hline.
  destruct k as [e | c m]; simpl accepted; [trivial|].
  destruct (Z.leb_spec (rank (severity c)) (threshold (as_machine lg1)))
    as [Ha | Ha]; [|discriminate].
  destruct (Z.leb_spec (rank (severity c)) (threshold (as_machine lg2)))
    as [Hb | Hb]; [trivial | lia].
Qed.

(* ================================================================== *)
(** * The protected formatter *)

(** X4.  [ConsoleLogger.formatMessage] on a constructed logger, for any
    label a subclass may pass: a label that lower-cases to one of the
    six gets the color of that severity and a tag made from the label as
    given; any other label finds no color, and the call throws a
    TypeError after the clock was read, with nothing written. *)
Theorem formatMessage_throws_on_unknown_label
        (lg : Logger) (lvl m : string) (w : World) :
  constructed lg ->
  (forall l, toLowerCase lvl = label l ->
     run (formatMessage lvl m) lg w
     = (Return (yellow chalk ("[" ++ clock w (reads w) ++ "] ")
                ++ color_of l (levelTag levels_init lvl ++ m)),
        {| this := lg; world := tick w |}))
  /\ (~ recognized lvl ->
      exists msg,
        run (formatMessage lvl m) lg w
        = (Throw (TypeError msg), {| this := lg; world := tick w |})).
Proof.
  intros Hc. apply constructed_well_formed in Hc. unfold well_formed in Hc.
  destruct lg as [[[t lv] cs] | [[[t lv] cs] st e]]; simpl in Hc;
    destruct Hc as [Hlv Hcs]; subst lv cs.
  - split.
    + intros l Hl. unfold run, formatMessage, ConsoleLogger_formatMessage.
      autounfold with methods. cbn [this as_console as_machine machine
        colors levels fst snd].
      rewrite (getLevelNumber_recognized lvl l Hl). destruct l; reflexivity.
    + intros Hun. eexists.
      unfold run, formatMessage, ConsoleLogger_formatMessage.
      autounfold with methods. cbn [this as_console as_machine machine
        colors levels fst snd].
      rewrite (getLevelNumber_unrecognized lvl Hun). reflexivity.
  - split.
    + intros l Hl. unfold run, formatMessage, ConsoleLogger_formatMessage.
      autounfold with methods. cbn [this as_console as_machine machine
        colors levels console fst snd].
      rewrite (getLevelNumber_recognized lvl l Hl). destruct l; reflexivity.
    + intros Hun. eexists.
      unfold run, formatMessage, ConsoleLogger_formatMessage.
      autounfold with methods. cbn [this as_console as_machine machine
        colors levels console fst snd].
      rewrite (getLevelNumber_unrecognized lvl Hun). reflexivity.
Qed.

(** X5.  With a chalk that adds nothing, the formatting [ConsoleLogger]
    overrides is the default formatting of [LoggerMachine]: for the six
    labels and for errors, both methods return the same text and leave
    the same state. *)
Theorem console_format_without_colors
        (lg : Logger) (l : Level) (m : string) (e : JsError) (w : World) :
  colorless chalk ->
  constructed lg ->
  run (formatMessage (label l) m) lg w
  = run (LoggerMachine_formatMessage (label l) m) lg w
  /\ run (formatError e) lg w = run (LoggerMachine_formatError e) lg w.
Proof.
  intros Hplain Hc. apply constructed_well_formed in Hc. unfold well_formed in Hc.
  assert (Hy : forall s, yellow chalk s = s) by (intros s; apply Hplain).
  split.
  - destruct lg as [[[t lv] cs] | [[[t lv] cs] st eo]]; simpl in Hc;
      destruct Hc as [Hlv Hcs]; subst lv cs;
      unfold run, formatMessage, ConsoleLogger_formatMessage,
        LoggerMachine_formatMessage, timestamp;
      autounfold with methods;
      cbn [this as_console as_machine machine colors levels console fst snd];
      rewrite getLevelNumber_label;
      destruct l; simpl; rewrite Hy;
        match goal with
        | |- context [?c chalk ?x] => replace (c chalk x) with x
            by (symmetry; apply Hplain)
        end; reflexivity.
  - destruct lg; unfold run, formatError, ConsoleLogger_formatError,
      LoggerMachine_formatError, timestamp;
      autounfold with methods; simpl; rewrite Hy;
        match goal with
        | |- context [red chalk ?x] => replace (red chalk x) with x
            by (symmetry; apply Hplain)
        end; reflexivity.
Qed.

(* ================================================================== *)
(** * The example program *)

Lemma run_bind_invoke {B : Type} (lg : Logger) (k : Call)
      (rest : unit -> Method B) (w : World) :
  well_formed lg -> accepted lg k = true ->
  run (bind (invoke k) rest) lg w
  = run (rest tt) lg (after w (sink_writes lg k (line_of lg k w))).
Proof.
  intros Hwf Hacc. apply run_bind. rewrite (run_invoke lg k w Hwf), Hacc.
  reflexivity.
Qed.

(** X14.  [example.ts], in any world and whatever stack the runtime gives
    the error: the program ends normally after six clock readings; it
    opens "example.log" for appending, writes a newline to it, and then
    for each of its six calls, in order, writes the colored line to the
    console (stderr for the error, stdout for the rest) and the stripped
    line and a newline to the file.  No call is filtered out. *)
Theorem example_ts_writes_six_entries (stack_text : string) (w : World) :
  let f := {| path := "example.log"; flags := "a" |} in
  let line (i : nat) (l : Level) (body : string) :=
    yellow chalk ("[" ++ clock w (i + reads w)%nat ++ "] ")
    ++ color_of l (levelTag levels_init (label l) ++ body) in
  let filed (s : string) := StreamWrite f (stripAnsi s ++ LF) in
  let l0 := line 0%nat Lerror stack_text in
  let l1 := line 1%nat Lwarn "heed my warning!" in
  let l2 := line 2%nat Linfo "something informative" in
  let l3 := line 3%nat Lverbose "explaining what's happening verbosely" in
  let l4 := line 4%nat Ldebug "information to help diagnose bugs" in
  let l5 := line 5%nat Lsilly "obscenely fine-grained details" in
  example_ts stack_text w
  = (Return tt,
     {| clock := clock w;
        reads := 6 + reads w;
        trace := trace w
                 ++ [StreamOpen f; StreamWrite f LF;
                     ConsoleError l0; filed l0;
                     ConsoleLog l1; filed l1;
                     ConsoleLog l2; filed l2;
                     ConsoleLog l3; filed l3;
                     ConsoleLog l4; filed l4;
                     ConsoleLog l5; filed l5] |}).
Proof.
  cbv zeta. unfold example_ts. unfold bind at 1.
  rewrite new_FileLogger_returns by reflexivity. cbv zeta. unfold on.
  set (lg := AFileLogger _).
  assert (Hwf : well_formed lg) by (split; reflexivity).
  change (error ?e) with (invoke (CError e)).
  change (warn ?m) with (invoke (CLeveled Warn m)).
  change (info ?m) with (invoke (CLeveled Info m)).
  change (verbose ?m) with (invoke (CLeveled Verbose m)).
  change (debug ?m) with (invoke (CLeveled Debug m)).
  change (silly ?m) with (invoke (CLeveled Silly m)).
  rewrite !(run_bind_invoke lg _ _ _ Hwf) by reflexivity.
  rewrite (run_invoke lg _ _ Hwf).
  cbn [accepted]. unfold after. cbn -[levelTag append].
  rewrite <- !app_assoc. reflexivity.
Qed.

(* ================================================================== *)
(** * The two console channels *)

Lemma length_stderr_events (lg : Logger) (clk : nat -> string) (n : nat)
      (ks : list Call) :
  List.length (stderr_of (events_from lg clk n ks))
  = List.length (filter is_error ks).
Proof.
  revert n. induction ks as [|k ks IH]; intros n; [reflexivity|].
  cbn [events_from].
  destruct k as [e | c m]; cbn [accepted filter is_error].
  - rewrite stderr_of_app, stderr_sink_writes. simpl. rewrite IH. reflexivity.
  - destruct (rank (severity c) <=? threshold (as_machine lg)); [|apply IH].
    rewrite stderr_of_app, stderr_sink_writes. simpl. apply IH.
Qed.

Lemma length_stdout_events (lg : Logger) (clk : nat -> string) (n : nat)
      (ks : list Call) :
  List.length (stdout_of (events_from lg clk n ks))
  = count_accepted lg (filter (fun k => negb (is_error k)) ks).
Proof.
  revert n. induction ks as [|k ks IH]; intros n; [reflexivity|].
  cbn [events_from].
  destruct k as [e | c m]; cbn [accepted filter is_error negb].
  - rewrite stdout_of_app, stdout_sink_writes. simpl. apply IH.
  - rewrite count_accepted_cons. cbn [accepted].
    destruct (rank (severity c) <=? threshold (as_machine lg)); [|apply IH].
    rewrite stdout_of_app, stdout_sink_writes. simpl. rewrite IH. reflexivity.
Qed.

(** X7.  In any sequence of calls on a constructed logger, stderr gets one
    line for every call of [error], whatever the threshold, and nothing
    else; stdout gets one line for every leveled call that passes the
    threshold, and nothing else. *)
Theorem errors_on_stderr_rest_on_stdout
        (lg : Logger) (ks : list Call) (w : World) :
  constructed lg ->
  let evs := since w (run (run_all ks) lg w) in
  List.length (stderr_of evs) = List.length (filter is_error ks)
  /\ List.length (stdout_of evs)
     = count_accepted lg (filter (fun k => negb (is_error k)) ks).
Proof.
  intros Hc evs. apply constructed_well_formed in Hc.
  subst evs. rewrite (run_run_all lg ks w Hc), since_trace.
  split; [apply length_stderr_events | apply length_stdout_events].
Qed.

End Logboom.

(* ================================================================== *)
(** * Instances on a color terminal *)

Lemma info_console_constructed : constructed info_console.
Proof.
  exists "info".
  apply (by_new_ConsoleLogger "info" {| level := "info" |} noon); reflexivity.
Qed.

Lemma leveled_call_triage_witness :
  constructed info_console
  /\ stdout_of (since noon (run (call ansi_chalk strip_sgr Warn "heed")
                                info_console noon))
     = [style "33" "39" "[2018-01-01T12:00:00.000Z] "
        ++ style "35" "39" "(WARN)    heed"]
  /\ run (call ansi_chalk strip_sgr Debug "heed") info_console noon
     = (Return tt, {| this := info_console; world := noon |}).
Proof.
  split; [exact info_console_constructed|].
  destruct (leveled_call_triage ansi_chalk strip_sgr info_console Warn "heed"
              noon info_console_constructed) as [Hacc _].
  destruct (leveled_call_triage ansi_chalk strip_sgr info_console Debug "heed"
              noon info_console_constructed) as [_ Hrej].
  split.
  - apply Hacc. vm_compute. discriminate.
  - apply Hrej. vm_compute. reflexivity.
Defined.

Lemma getLevelNumber_rank_witness :
  toLowerCase "WaRn" = label Lwarn
  /\ getLevelNumber (levels (new_LoggerMachine {| level := "silly" |})) "WaRn" = 1.
Proof.
  split; [reflexivity|].
  pose proof (getLevelNumber_rank {| level := "silly" |}) as H.
  cbv zeta in H. destruct H as (_ & _ & _ & H).
  apply (H "WaRn" Lwarn). reflexivity.
Defined.

Lemma unknown_label_is_accepted_witness :
  ~ recognized "loud"
  /\ (exists lg,
        new_ConsoleLogger {| level := "loud" |} noon = (Return lg, noon)
        /\ threshold (as_machine lg) = -1)
  /\ has_nul (logfile loud_log) = false
  /\ (exists lg w',
        new_FileLogger loud_log noon = (Return lg, w')
        /\ threshold (as_machine lg) = -1)
  /\ (exists e, fst (new_FileLogger nul_log noon) = Throw e)
  /\ has_nul (logfile nul_log) = true.
Proof.
  destruct (unknown_label_is_accepted "loud" unrecognized_loud)
    as (Hconsole & Hfile & _ & Hthrow).
  split; [exact unrecognized_loud|].
  split; [apply Hconsole; reflexivity|].
  split; [reflexivity|].
  split; [apply Hfile; reflexivity|].
  split; [eexists; reflexivity|].
  apply (Hthrow nul_log noon
           (TypeError "The argument 'path' must be a string without null bytes")).
  reflexivity.
Defined.

Lemma unknown_label_logger_is_silent_witness :
  ~ recognized "loud"
  /\ has_nul (logfile loud_log) = false
  /\ exists lg,
       fst (new_FileLogger loud_log noon) = Return lg
       /\ silent_except_errors ansi_chalk strip_sgr lg.
Proof.
  split; [exact unrecognized_loud|]. split; [reflexivity|].
  destruct (unknown_label_logger_is_silent ansi_chalk strip_sgr "loud"
              unrecognized_loud) as (_ & _ & Hfile & _).
  apply Hfile; reflexivity.
Defined.

Lemma file_sink_console_then_file_witness :
  fst (new_FileLogger out_log noon) = Return warn_file
  /\ accepted warn_file (CLeveled Warn "heed") = true
  /\ since noon (run (invoke ansi_chalk strip_sgr (CLeveled Warn "heed"))
                     warn_file noon)
     = [ConsoleLog (style "33" "39" "[2018-01-01T12:00:00.000Z] "
                    ++ style "35" "39" "(WARN)    heed");
        StreamWrite out_log_stream
                    ("[2018-01-01T12:00:00.000Z] (WARN)    heed" ++ LF)].
Proof.
  split; [reflexivity|]. split; [reflexivity|].
  apply (file_sink_console_then_file ansi_chalk strip_sgr out_log noon
           warn_file (CLeveled Warn "heed") noon); reflexivity.
Defined.

Lemma stripped_console_line_is_file_line_witness :
  fst (new_ConsoleLogger (options out_log) noon) = Return warn_console
  /\ fst (new_FileLogger out_log noon) = Return warn_file
  /\ accepted warn_file (CError boom) = true
  /\ exists line,
       (stdout_of (since noon (run (invoke ansi_chalk strip_sgr (CError boom))
                                  warn_console noon))
        ++ stderr_of (since noon (run (invoke ansi_chalk strip_sgr (CError boom))
                                     warn_console noon)))%list = [line]
       /\ appended_to "out.log"
            (since noon (run (invoke ansi_chalk strip_sgr (CError boom))
                             warn_file noon))
          = strip_sgr line ++ LF.
Proof.
  split; [reflexivity|]. split; [reflexivity|]. split; [reflexivity|].
  apply (stripped_console_line_is_file_line ansi_chalk strip_sgr out_log noon
           warn_console warn_file (CError boom) noon); reflexivity.
Defined.

Lemma formatting_never_throws_witness :
  constructed info_console
  /\ exists text,
       run (formatMessage ansi_chalk (label (severity Silly)) "details")
           info_console noon
       = (Return text, {| this := info_console; world := tick noon |}).
Proof.
  split; [exact info_console_constructed|].
  apply (formatting_never_throws ansi_chalk). exact info_console_constructed.
Defined.

(** C5, as stated, fails: an error without a stack is formatted with
    the text "undefined", not with its message "boom". *)
Lemma no_fallback_to_message :
  stack bare_boom = None
  /\ message bare_boom = "boom"
  /\ fst (run (formatError plain_chalk bare_boom) info_console noon)
     = Return "[2018-01-01T12:00:00.000Z] (ERROR)   undefined"
  /\ fst (run (formatError plain_chalk bare_boom) info_console noon)
     <> Return "[2018-01-01T12:00:00.000Z] (ERROR)   boom".
Proof.
  split; [reflexivity|]. split; [reflexivity|]. split; [reflexivity|].
  intros H. discriminate H.
Qed.

(** On a terminal without colors the console formatting is the
    default formatting of [LoggerMachine]: timestamp, level tag, text. *)
Lemma plain_formatMessage_is_default (lg : Logger) (lvl m : string) (w : World) :
  well_formed lg ->
  (exists l, lvl = label l) ->
  run (formatMessage plain_chalk lvl m) lg w
  = run (LoggerMachine_formatMessage lvl m) lg w.
Proof.
  unfold well_formed.
  destruct lg as [[[t lv] cs] | [[[t lv] cs] st e]]; simpl;
    intros [Hlv Hcs] [l Hl]; subst lv cs lvl; destruct l; reflexivity.
Qed.

Lemma plain_formatError_is_default (lg : Logger) (e : JsError) (w : World) :
  run (formatError plain_chalk e) lg w = run (LoggerMachine_formatError e) lg w.
Proof. destruct lg; reflexivity. Qed.

(** ** Scenarios of the specification *)

(** Threshold "warn": [info] writes nothing, [warn] writes one line. *)
Example scenario_threshold_warn :
  since noon (run (info ansi_chalk strip_sgr "x") warn_console noon) = []
  /\ since noon (run (warn ansi_chalk strip_sgr "x") warn_console noon)
     = [ConsoleLog (style "33" "39" "[2018-01-01T12:00:00.000Z] "
                    ++ style "35" "39" "(WARN)    x")].
Proof. split; reflexivity. Qed.

(** A file logger: escape codes on the console, none in the file. *)
Example scenario_file_without_colors :
  appended_to "out.log"
    (since noon (run (warn ansi_chalk strip_sgr "heed") warn_file noon))
  = "[2018-01-01T12:00:00.000Z] (WARN)    heed" ++ LF.
Proof. reflexivity. Qed.

(** [formatMessage] is protected; given a level outside the table it
    finds no color and calling the missing chalk function throws, after
    the clock was read. *)
Example formatMessage_unknown_level_throws :
  run (formatMessage ansi_chalk "loud" "x") info_console noon
  = (Throw (TypeError "chalkFunction is not a function"),
     {| this := info_console; world := tick noon |}).
Proof. reflexivity. Qed.

(* ================================================================== *)
(** * Further instances *)

Lemma warn_file_constructed : constructed warn_file.
Proof.
  exists "warn". apply (by_new_FileLogger "warn" out_log noon); reflexivity.
Qed.

Lemma warn_console_constructed : constructed warn_console.
Proof.
  exists "warn".
  apply (by_new_ConsoleLogger "warn" {| level := "warn" |} noon); reflexivity.
Qed.

Lemma threshold_of_level_witness :
  ~ recognized "loud"
  /\ threshold (new_LoggerMachine {| level := "loud" |}) = -1
  /\ toLowerCase "WARN" = label Lwarn
  /\ threshold (new_LoggerMachine {| level := "WARN" |}) = rank Lwarn.
Proof.
  split; [exact unrecognized_loud|]. split.
  - destruct (threshold_of_level {| level := "loud" |}) as (_ & [_ Hun] & _).
    apply Hun. exact unrecognized_loud.
  - split; [reflexivity|].
    destruct (threshold_of_level {| level := "WARN" |}) as (_ & _ & Hrank).
    apply (Hrank Lwarn). reflexivity.
Defined.

Lemma getLongestValue_first_longest_witness :
  In (e_acute ++ e_acute) [e_acute ++ e_acute; "abc"; "xyz"]
  /\ (js_length (e_acute ++ e_acute)
      <= js_length (getLongestValue [e_acute ++ e_acute; "abc"; "xyz"]))%nat.
Proof.
  split; [left; reflexivity|].
  destruct (getLongestValue_first_longest [e_acute ++ e_acute; "abc"; "xyz"])
    as [Hall _].
  apply Hall. left. reflexivity.
Defined.

Lemma rpad_never_truncates_witness :
  (10 <= js_length "(VERBOSE)  x")%nat
  /\ rpad "(VERBOSE)  x" 10 = "(VERBOSE)  x".
Proof.
  split; [simpl; lia|].
  destruct (rpad_never_truncates "(VERBOSE)  x" 10) as (_ & _ & Hsame).
  apply Hsame. simpl. lia.
Defined.

(** Text outside ASCII is measured in code units: two accented letters
    are shorter than "abc", and one accented letter is padded to three
    with two spaces. *)
Example getLongestValue_counts_code_units :
  getLongestValue [e_acute ++ e_acute; "abc"] = "abc".
Proof. reflexivity. Qed.

Example rpad_counts_code_units :
  rpad e_acute 3 = e_acute ++ "  ".
Proof. reflexivity. Qed.

Lemma calls_in_order_witness :
  constructed info_console
  /\ List.length
       (console_lines
          (since noon
             (run (run_all ansi_chalk strip_sgr
                           [CError boom; CLeveled Debug "x"; CLeveled Warn "y"])
                  info_console noon)))
     = count_accepted info_console
                      [CError boom; CLeveled Debug "x"; CLeveled Warn "y"].
Proof.
  split; [exact info_console_constructed|].
  apply (calls_in_order ansi_chalk strip_sgr info_console
           [CError boom; CLeveled Debug "x"; CLeveled Warn "y"] noon
           info_console_constructed).
Defined.

Lemma file_mirrors_console_witness :
  constructed warn_file
  /\ appended_to "out.log"
       (since noon (run (run_all ansi_chalk strip_sgr
                                 [CLeveled Warn "heed"; CError boom])
                        warn_file noon))
     = concat_strings
         (map (fun line => strip_sgr line ++ LF)
              (console_lines
                 (since noon (run (run_all ansi_chalk strip_sgr
                                           [CLeveled Warn "heed"; CError boom])
                                  warn_file noon)))).
Proof.
  split; [exact warn_file_constructed|].
  apply (file_mirrors_console ansi_chalk strip_sgr
           {| console := init_ConsoleLogger {| level := "warn" |};
              stream := out_log_stream; eol := LF |}
           [CLeveled Warn "heed"; CError boom] noon warn_file_constructed).
Defined.

Lemma logging_writes_only_own_outputs_witness :
  constructed warn_file
  /\ (forall f, warn_file = AFileLogger f -> path (stream f) <> "other.log")
  /\ appended_to "other.log"
       (since noon (run (run_all ansi_chalk strip_sgr [CLeveled Warn "heed"])
                        warn_file noon)) = "".
Proof.
  assert (Hother : forall f, warn_file = AFileLogger f
                             -> path (stream f) <> "other.log").
  { intros f Hf. inversion Hf. simpl. discriminate. }
  split; [exact warn_file_constructed|]. split; [exact Hother|].
  destruct (logging_writes_only_own_outputs ansi_chalk strip_sgr warn_file
              [CLeveled Warn "heed"] noon warn_file_constructed) as [_ Hnone].
  apply Hnone. exact Hother.
Defined.

Lemma extreme_thresholds_witness :
  constructed_with "SILLY" (AConsoleLogger (init_ConsoleLogger {| level := "SILLY" |}))
  /\ toLowerCase "SILLY" = "silly"
  /\ List.length
       (console_lines
          (since noon
             (run (run_all ansi_chalk strip_sgr
                           [CLeveled Silly "a"; CError boom; CLeveled Debug "b"])
                  (AConsoleLogger (init_ConsoleLogger {| level := "SILLY" |}))
                  noon))) = 3%nat
  /\ constructed_with "Error" (AConsoleLogger (init_ConsoleLogger {| level := "Error" |}))
  /\ toLowerCase "Error" = "error"
  /\ run (call ansi_chalk strip_sgr Warn "a")
         (AConsoleLogger (init_ConsoleLogger {| level := "Error" |})) noon
     = (Return tt,
        {| this := AConsoleLogger (init_ConsoleLogger {| level := "Error" |});
           world := noon |}).
Proof.
  assert (Hs : constructed_with "SILLY"
                 (AConsoleLogger (init_ConsoleLogger {| level := "SILLY" |})))
    by (apply (by_new_ConsoleLogger "SILLY" {| level := "SILLY" |} noon);
        reflexivity).
  assert (He : constructed_with "Error"
                 (AConsoleLogger (init_ConsoleLogger {| level := "Error" |})))
    by (apply (by_new_ConsoleLogger "Error" {| level := "Error" |} noon);
        reflexivity).
  split; [exact Hs|]. split; [reflexivity|]. split.
  - destruct (extreme_thresholds ansi_chalk strip_sgr _ _ Hs) as [Hall _].
    apply (Hall eq_refl
             [CLeveled Silly "a"; CError boom; CLeveled Debug "b"] noon).
  - split; [exact He|]. split; [reflexivity|].
    destruct (extreme_thresholds ansi_chalk strip_sgr _ _ He) as [_ Hnone].
    apply (Hnone eq_refl).
Defined.

Lemma raising_threshold_keeps_entries_witness :
  constructed warn_console
  /\ constructed info_console
  /\ threshold (as_machine warn_console) <= threshold (as_machine info_console)
  /\ console_lines (since noon (run (invoke ansi_chalk strip_sgr (CLeveled Warn "x"))
                                    warn_console noon))
     = [style "33" "39" "[2018-01-01T12:00:00.000Z] "
        ++ style "35" "39" "(WARN)    x"]
  /\ console_lines (since noon (run (invoke ansi_chalk strip_sgr (CLeveled Warn "x"))
                                    info_console noon))
     = [style "33" "39" "[2018-01-01T12:00:00.000Z] "
        ++ style "35" "39" "(WARN)    x"].
Proof.
  assert (Hle : threshold (as_machine warn_console)
                <= threshold (as_machine info_console))
    by (vm_compute; discriminate).
  split; [exact warn_console_constructed|].
  split; [exact info_console_constructed|].
  split; [exact Hle|]. split; [reflexivity|].
  apply (raising_threshold_keeps_entries ansi_chalk strip_sgr
           warn_console info_console (CLeveled Warn "x") noon _
           warn_console_constructed info_console_constructed Hle).
  reflexivity.
Defined.

Lemma formatMessage_throws_on_unknown_label_witness :
  constructed info_console
  /\ toLowerCase "WARN" = label Lwarn
  /\ fst (run (formatMessage ansi_chalk "WARN" "x") info_console noon)
     = Return (style "33" "39" "[2018-01-01T12:00:00.000Z] "
               ++ style "35" "39" "(WARN)    x")
  /\ ~ recognized "loud"
  /\ exists msg,
       run (formatMessage ansi_chalk "loud" "x") info_console noon
       = (Throw (TypeError msg), {| this := info_console; world := tick noon |}).
Proof.
  destruct (formatMessage_throws_on_unknown_label ansi_chalk info_console
              "WARN" "x" noon info_console_constructed) as [Hknown _].
  destruct (formatMessage_throws_on_unknown_label ansi_chalk info_console
              "loud" "x" noon info_console_constructed) as [_ Hunknown].
  split; [exact info_console_constructed|]. split; [reflexivity|]. split.
  - rewrite (Hknown Lwarn eq_refl). reflexivity.
  - split; [exact unrecognized_loud|]. apply Hunknown. exact unrecognized_loud.
Defined.

Lemma colorless_plain_chalk : colorless plain_chalk.
Proof. intros s. repeat split. Qed.

Lemma console_format_without_colors_witness :
  colorless plain_chalk
  /\ constructed info_console
  /\ run (formatMessage plain_chalk (label Ldebug) "x") info_console noon
     = run (LoggerMachine_formatMessage (label Ldebug) "x") info_console noon
  /\ run (formatError plain_chalk bare_boom) info_console noon
     = run (LoggerMachine_formatError bare_boom) info_console noon.
Proof.
  split; [exact colorless_plain_chalk|].
  split; [exact info_console_constructed|].
  apply (console_format_without_colors plain_chalk info_console Ldebug "x"
           bare_boom noon colorless_plain_chalk info_console_constructed).
Defined.

Lemma errors_on_stderr_rest_on_stdout_witness :
  constructed warn_console
  /\ List.length
       (stderr_of
          (since noon
             (run (run_all ansi_chalk strip_sgr
                           [CError boom; CLeveled Info "i"; CLeveled Warn "w";
                            CError bare_boom])
                  warn_console noon))) = 2%nat
  /\ List.length
       (stdout_of
          (since noon
             (run (run_all ansi_chalk strip_sgr
                           [CError boom; CLeveled Info "i"; CLeveled Warn "w";
                            CError bare_boom])
                  warn_console noon))) = 1%nat.
Proof.
  split; [exact warn_console_constructed|].
  apply (errors_on_stderr_rest_on_stdout ansi_chalk strip_sgr warn_console
           [CError boom; CLeveled Info "i"; CLeveled Warn "w"; CError bare_boom]
           noon warn_console_constructed).
Defined.

Lemma session_file_text_witness :
  has_nul (logfile out_log) = false
  /\ fst (session ansi_chalk strip_sgr out_log [CLeveled Warn "heed"] noon)
     = Return tt
  /\ has_nul (logfile nul_log) = true
  /\ exists msg,
       session ansi_chalk strip_sgr nul_log [CLeveled Warn "heed"] noon
       = (Throw (TypeError msg), noon).
Proof.
  destruct (session_file_text ansi_chalk strip_sgr out_log
              [CLeveled Warn "heed"] noon) as [Hruns _].
  destruct (session_file_text ansi_chalk strip_sgr nul_log
              [CLeveled Warn "heed"] noon) as [_ Hthrows].
  split; [reflexivity|]. split; [apply Hruns; reflexivity|].
  split; [reflexivity|]. apply Hthrows. reflexivity.
Defined.

Lemma readme_listing_lacks_trailing_eol_witness :
  has_nul (logfile out_log) = false
  /\ appended_to (logfile out_log)
       (written noon (session ansi_chalk strip_sgr out_log
                              [CLeveled Warn "heed"] noon))
     = appended_to (logfile out_log)
         (written noon (readme_session ansi_chalk strip_sgr out_log
                                       [CLeveled Warn "heed"] noon))
       ++ configured_eol out_log
  /\ has_nul (logfile nul_log) = true
  /\ exists msg msg',
       session ansi_chalk strip_sgr nul_log [CLeveled Warn "heed"] noon
       = (Throw (TypeError msg), noon)
       /\ readme_session ansi_chalk strip_sgr nul_log [CLeveled Warn "heed"] noon
          = (Throw (TypeError msg'), noon).
Proof.
  destruct (readme_listing_lacks_trailing_eol ansi_chalk strip_sgr out_log
              [CLeveled Warn "heed"] noon) as [Hruns _].
  destruct (readme_listing_lacks_trailing_eol ansi_chalk strip_sgr nul_log
              [CLeveled Warn "heed"] noon) as [_ Hthrows].
  split; [reflexivity|]. split; [apply Hruns; reflexivity|].
  split; [reflexivity|]. apply Hthrows. reflexivity.
Defined.
